(** * Page Analysis Engine: a shallow embedding of [playwrightAnalyzer.ts]

    The development follows the class [PlaywrightPageAnalyzer]:
    - [JsString]: the string primitives the analyzer calls
      ([toLowerCase], [trim], [includes], [replace], [split], ...);
    - [Driver]: the headless-browser capability the analyzer consumes
      (a document tree, selector queries, element handles);
    - the analyzer itself: [extractElementInfo], [inferRole],
      [getElementName], [generateLocator], [generateContentLocator],
      [extractElements], [extractContentElements], [inferActions],
      [analyzePage], [close];
    - [Scenarios]: the fallback path of [openaiService.ts];
    - the properties of the specification, one theorem each, followed by
      further properties of the same code.

    Strings are sequences of code units below 256 (one [ascii] per unit). *)

From Stdlib Require Import Ascii String DecimalString.
From stdpp Require Import gmap strings list fin_maps.

Local Open Scope string_scope.

(** ** String primitives *)

Module JsString.

(** The double-quote character, as a one-character string. *)
Definition dquote : string := String (ascii_of_nat 34) EmptyString.

Definition to_lower_unit (c : ascii) : ascii :=
  let n := N_of_ascii c in
  if ((65 <=? n) && (n <=? 90))%N
     || ((192 <=? n) && (n <=? 222) && negb (n =? 215))%N
  then ascii_of_N (n + 32) else c.

(** [s.toLowerCase()] *)
Fixpoint toLowerCase (s : string) : string :=
  match s with
  | EmptyString => EmptyString
  | String c s' => String (to_lower_unit c) (toLowerCase s')
  end.

(** White space and line terminators removed by [trim], below 256. *)
Definition is_white (c : ascii) : bool :=
  match N_of_ascii c with
  | 9%N | 10%N | 11%N | 12%N | 13%N | 32%N | 160%N => true
  | _ => false
  end.

Fixpoint trimStart (s : string) : string :=
  match s with
  | EmptyString => EmptyString
  | String c s' => if is_white c then trimStart s' else s
  end.

Fixpoint trimEnd (s : string) : string :=
  match s with
  | EmptyString => EmptyString
  | String c s' =>
      match trimEnd s' with
      | EmptyString => if is_white c then EmptyString else String c EmptyString
      | t => String c t
      end
  end.

(** [s.trim()] *)
Definition trim (s : string) : string := trimEnd (trimStart s).

(** [s.includes(sub)] *)
Fixpoint includes (s sub : string) : bool :=
  String.prefix sub s
  || match s with
     | EmptyString => false
     | String _ s' => includes s' sub
     end.

(** [s.replace(/c/g, by)] for a one-character pattern [c]. *)
Fixpoint replaceAll (c : ascii) (by_ : string) (s : string) : string :=
  match s with
  | EmptyString => EmptyString
  | String x s' =>
      if Ascii.eqb x c then by_ +:+ replaceAll c by_ s'
      else String x (replaceAll c by_ s')
  end.

(** [s.substring(0, n)] *)
Definition substring0 (n : nat) (s : string) : string := String.substring 0 n s.

(** [s.split(sep)] for a one-character separator; never empty. *)
Fixpoint split (sep : ascii) (s : string) : list string :=
  match s with
  | EmptyString => [EmptyString]
  | String c s' =>
      if Ascii.eqb c sep then EmptyString :: split sep s'
      else match split sep s' with
           | x :: xs => String c x :: xs
           | [] => [String c EmptyString]
           end
  end.

(** [`${n}`] for a non-negative integer. *)
Definition ofNumber (n : nat) : string := NilZero.string_of_uint (Nat.to_uint n).

(** JavaScript truthiness of a [string | null | undefined] value:
    the value itself when it is a non-empty string. *)
Definition truthy (v : option string) : option string :=
  match v with
  | Some EmptyString | None => None
  | Some s => Some s
  end.

(** Truthiness of a value known to be a string. *)
Definition nonEmpty (s : string) : bool :=
match s with
| EmptyString => false
| String _ _ => true
end.

(** [v || d] for a [string | null | undefined] value [v]. *)
Definition orElse (v : option string) (d : string) : string :=
  match truthy v with
  | Some s => s
  | None => d
  end.

End JsString.

Import JsString.

(** ** The browser driver

    The document shown by a page is a tree of elements and text nodes.
    An element handle is the subtree it points to.  [throws] marks an
    element whose handle operations reject (the analyzer catches such
    failures per element and skips the element).

    An element handle offers [getAttribute], [textContent], [evaluate],
    [$] and [$$]. It has no [tagName]: the tag of an element is read
    inside the page, through [evaluate]. *)

Module Driver.

#[warnings="-register-all"]
Inductive Dom : Type :=
| TextNode (data : string)
| Element (tagName : string) (attrs : list (string * string))
          (throws : bool) (children : list Dom).

Record Document := { doc_title : string; doc_root : Dom }.

Inductive exn :=
| HandleError | NavigationError | LaunchError | TargetClosed | EvaluateError
| TypeError.

Inductive result (A : Type) : Type :=
| Ok (a : A)
| Throw (e : exn).
Arguments Ok {A} a.
Arguments Throw {A} e.

#[global] Instance result_ret : MRet result := fun A a => Ok a.
#[global] Instance result_bind : MBind result := fun A B f r =>
  match r with
  | Ok a => f a
  | Throw e => Throw e
  end.

(** [try { ... } catch { return null }] *)
Definition catchNull {A} (r : result A) : option A :=
  match r with
  | Ok a => Some a
  | Throw _ => None
  end.

Fixpoint assoc (name : string) (l : list (string * string)) : option string :=
  match l with
  | [] => None
  | (k, v) :: l' => if String.eqb k name then Some v else assoc name l'
  end.

(** Elements of a subtree in document order, the root included. *)
Fixpoint subtree_elements (d : Dom) : list Dom :=
  match d with
  | TextNode _ => []
  | Element _ _ _ children => d :: flat_map subtree_elements children
  end.

(** Proper element descendants of a node, in document order. *)
Definition descendants (d : Dom) : list Dom :=
  match d with
  | TextNode _ => []
  | Element _ _ _ children => flat_map subtree_elements children
  end.

(** The DOM [textContent] of a node: all text below it, concatenated. *)
Fixpoint text_of (d : Dom) : string :=
  match d with
  | TextNode data => data
  | Element _ _ _ children =>
      fold_right (fun c acc => text_of c +:+ acc) EmptyString children
  end.

(** Selectors of the two catalogues. *)
Inductive Simple :=
| SelTag (tag : string)                 (* input *)
| SelTagAttr (tag attr : string)        (* a[href] *)
| SelAttr (attr : string)               (* [data-testid] *)
| SelAttrEq (attr value : string).      (* [role=button], value quoted *)

(** A selector is a comma-separated group of simple selectors. *)
Definition Selector := list Simple.

Definition tag_is (d : Dom) (tag : string) : bool :=
  match d with
  | TextNode _ => false
  | Element tagName _ _ _ => String.eqb (toLowerCase tagName) tag
  end.

Definition attr_of (d : Dom) (name : string) : option string :=
  match d with
  | TextNode _ => None
  | Element _ attrs _ _ => assoc name attrs
  end.

Definition matches_simple (d : Dom) (s : Simple) : bool :=
  match s with
  | SelTag tag => tag_is d tag
  | SelTagAttr tag attr => tag_is d tag && bool_decide (is_Some (attr_of d attr))
  | SelAttr attr => bool_decide (is_Some (attr_of d attr))
  | SelAttrEq attr value => bool_decide (attr_of d attr = Some value)
  end.

Definition matches (sel : Selector) (d : Dom) : bool :=
  existsb (matches_simple d) sel.

(** [page.$$(selector)] on a loaded page. *)
Definition page_queryAll (page : Document) (sel : Selector) : list Dom :=
  List.filter (matches sel) (subtree_elements (doc_root page)).

(** Handle operations; each rejects on a [throws] element. *)
Definition live (handle : Dom) : result Dom :=
  match handle with
  | Element _ _ false _ => Ok handle
  | _ => Throw HandleError
  end.

(** [handle.tagName()]. The handle is an [ElementHandle] typed [any];
    it has no property [tagName], so the call is a call of [undefined]
    and throws a [TypeError], whatever the element. *)
Definition tagName (handle : Dom) : result string := Throw TypeError.

(** [handle.evaluate((el) => f(el.tagName))]: the tag name as the
    document has it, read inside the page. *)
Definition evaluateTagName {A} (handle : Dom) (f : string -> A) : result A :=
  h ← live handle;
  match h with
  | Element t _ _ _ => Ok (f t)
  | TextNode _ => Throw EvaluateError
  end.

Definition getAttribute (handle : Dom) (name : string) : result (option string) :=
  h ← live handle; Ok (attr_of h name).

Definition textContent (handle : Dom) : result (option string) :=
  h ← live handle; Ok (Some (text_of h)).

(** [handle.$$(selector)] *)
Definition queryAll (handle : Dom) (sel : Selector) : result (list Dom) :=
  h ← live handle; Ok (List.filter (matches sel) (descendants h)).

(** [handle.$(selector)] *)
Definition queryFirst (handle : Dom) (sel : Selector) : result (option Dom) :=
  l ← queryAll handle sel; Ok (head l).

(** [document.body]: the first child of the root element that is a
    [body] or a [frameset], [null] when there is none. *)
Definition body (page : Document) : option Dom :=
  match doc_root page with
  | TextNode _ => None
  | Element _ _ _ children =>
      List.find (fun c => tag_is c "body" || tag_is c "frameset") children
  end.

End Driver.

Import Driver.

(** ** The analyzer's data *)

Record PageElement := {
  role : string;
  name_or_label : string;
  suggested_locator : string;
  text_content : option string;
  tag_name : string;
  attributes : gmap string string;
}.

Record PageAnalysis := {
  url : string;
  title : string;
  high_level_actions : list string;
  key_elements : list PageElement;
  page_structure : string;
  form_fields : list PageElement;
  interactive_elements : list PageElement;
  navigation_elements : list PageElement;
  content_elements : list PageElement;
}.

(** ** Role Classifier, Name/Label Resolver, Locator Synthesizer *)

Definition inferRole (handle : Dom) (tagName : string)
    (attributes : gmap string string) : string :=
  match truthy (attributes !! "role") with
  | Some r => r
  | None =>
      let tag := toLowerCase tagName in
      if String.eqb tag "button" then "button"
      else if String.eqb tag "a" then "link"
      else if String.eqb tag "input" then
        match attributes !! "type" with
        | Some ty =>
            if String.eqb ty "text" || String.eqb ty "email"
               || String.eqb ty "password" || String.eqb ty "search"
            then "textbox"
            else if String.eqb ty "checkbox" then "checkbox"
            else if String.eqb ty "radio" then "radio"
            else if String.eqb ty "submit" then "button"
            else "textbox"
        | None => "textbox"
        end
      else if String.eqb tag "select" then "combobox"
      else if String.eqb tag "textarea" then "textbox"
      else "generic"
  end.

Definition getElementName (handle : Dom) (attributes : gmap string string)
    (textContent : option string) : string :=
  match truthy (attributes !! "aria-label") with
  | Some v => v
  | None =>
  match truthy (attributes !! "data-testid") with
  | Some v => v
  | None =>
  match truthy (attributes !! "placeholder") with
  | Some v => v
  | None =>
  match truthy (trim <$> truthy textContent) with
  | Some v => v
  | None =>
  match truthy (attributes !! "name") with
  | Some v => v
  | None =>
  match truthy (attributes !! "id") with
  | Some v => v
  | None =>
  match truthy (attributes !! "href") with
  | Some v => v
  | None => "unnamed element"
  end end end end end end end.

Definition generateLocator (role name : string)
    (attributes : gmap string string) (tagName : string) : string :=
  match truthy (attributes !! "data-testid") with
  | Some v => "page.getByTestId('" +:+ v +:+ "')"
  | None =>
  match truthy (attributes !! "aria-label") with
  | Some v => "page.getByLabel('" +:+ v +:+ "')"
  | None =>
  if String.eqb role "button" && nonEmpty name
     && negb (String.eqb name "unnamed element")
  then "page.getByRole('button', { name: '" +:+ name +:+ "' })"
  else
  if String.eqb role "link" && nonEmpty name
     && negb (String.eqb name "unnamed element")
  then "page.getByRole('link', { name: '" +:+ name +:+ "' })"
  else
  match (if String.eqb role "textbox" then truthy (attributes !! "placeholder") else None) with
  | Some v => "page.getByPlaceholder('" +:+ v +:+ "')"
  | None =>
  match (if String.eqb role "textbox" then truthy (attributes !! "aria-label") else None) with
  | Some v => "page.getByLabel('" +:+ v +:+ "')"
  | None =>
  match truthy (attributes !! "name") with
  | Some v => "page.locator('[name=" +:+ dquote +:+ v +:+ dquote +:+ "]')"
  | None =>
  match truthy (attributes !! "id") with
  | Some v => "page.locator('#" +:+ v +:+ "')"
  | None => "page.locator('" +:+ toLowerCase tagName +:+ "')"
  end end end end end end.

Definition generateContentLocator (role text tagName : string)
    (id className : option string) : string :=
  match truthy id with
  | Some i => "page.locator('#" +:+ i +:+ "')"
  | None =>
  if String.eqb role "heading" && nonEmpty text
  then "page.getByRole('heading', { name: '" +:+ replaceAll "'" "\'" text +:+ "' })"
  else
  if nonEmpty text
     && (String.eqb role "paragraph" || String.eqb role "text")
  then
    let shortText := if Nat.ltb 20 (String.length text) then substring0 20 text else text in
    "page.getByText('" +:+ replaceAll "'" "\'" shortText +:+ "')"
  else
  if String.eqb role "image" && nonEmpty text
  then "page.getByAltText('" +:+ replaceAll "'" "\'" text +:+ "')"
  else
  match truthy className with
  | Some c =>
      "page.locator('" +:+ tagName +:+ "." +:+ default EmptyString (split " " c !! 0%nat) +:+ "')"
  | None =>
  if nonEmpty text && Nat.ltb (String.length text) 50
  then "page.locator('" +:+ tagName +:+ ":has-text(" +:+ dquote
         +:+ replaceAll (ascii_of_nat 34) ("\" +:+ dquote) text +:+ dquote +:+ ")')"
  else "page.locator('" +:+ tagName +:+ "')"
  end end.

(** ** Element Extractor *)

Definition attrNames : list string :=
  ["id"; "class"; "name"; "type"; "placeholder"; "aria-label";
   "data-testid"; "href"; "role"].

(** The loop over [attrNames] of [extractElementInfo]:
    [attributes[attr] = value] when [value] is truthy. *)
Fixpoint readAttributes (handle : Dom) (names : list string)
    (attributes : gmap string string) : result (gmap string string) :=
  match names with
  | [] => Ok attributes
  | attr :: rest =>
      value ← getAttribute handle attr;
      readAttributes handle rest
        match truthy value with
        | Some v => <[attr := v]> attributes
        | None => attributes
        end
  end.

Definition extractElementInfo (handle : Dom) : option PageElement :=
  catchNull (
    tagName ← tagName handle;
    attributes ← readAttributes handle attrNames ∅;
    textContent ← textContent handle;
    let role := inferRole handle tagName attributes in
    let nameOrLabel := getElementName handle attributes textContent in
    let suggestedLocator := generateLocator role nameOrLabel attributes tagName in
    Ok {| role := role;
          name_or_label := nameOrLabel;
          suggested_locator := suggestedLocator;
          text_content := Some (orElse (trim <$> textContent) EmptyString);
          tag_name := toLowerCase tagName;
          attributes := attributes |}).

(** [for (const handle of handles) { try { ...push... } catch { continue } }]:
    the body yields the element to push, nothing, or throws. *)
Definition forEachPush (handles : list Dom)
    (body : Dom -> result (option PageElement))
    (elements : list PageElement) : list PageElement :=
  fold_left (fun elements handle =>
               match body handle with
               | Ok (Some element) => (elements ++ [element])%list
               | Ok None | Throw _ => elements
               end) handles elements.

(** The selector catalogue of [extractElements], in source order. *)
Definition locators : list Selector :=
  [ [SelTag "input"]; [SelTag "button"]; [SelTag "select"]; [SelTag "textarea"];
    [SelTagAttr "a" "href"];
    [SelAttrEq "role" "button"]; [SelAttrEq "role" "textbox"];
    [SelAttrEq "role" "combobox"]; [SelAttrEq "role" "checkbox"];
    [SelAttrEq "role" "radio"];
    [SelAttr "data-testid"]; [SelAttr "aria-label"] ].

(** [self.findIndex(p)]: the first index satisfying [p], or -1. *)
Fixpoint findIndex {A} (p : A -> bool) (self : list A) : Z :=
  match self with
  | [] => (-1)%Z
  | x :: rest =>
      if p x then 0%Z
      else match findIndex p rest with
           | Z.neg _ => (-1)%Z
           | i => (i + 1)%Z
           end
  end.

(** [self.filter((element, index, self) => p(element, index, self))]:
    [filterFrom] visits the elements from position [index] on. *)
Fixpoint filterFrom {A} (p : A -> Z -> list A -> bool) (self l : list A)
    (index : Z) : list A :=
  match l with
  | [] => []
  | element :: rest =>
      if p element index self then element :: filterFrom p self rest (index + 1)%Z
      else filterFrom p self rest (index + 1)%Z
  end.

Definition filterIndexed {A} (p : A -> Z -> list A -> bool) (self : list A) : list A :=
  filterFrom p self self 0%Z.

(** The candidate list of [extractElements] before deduplication. *)
Definition candidates (page : Document) : list PageElement :=
  fold_left (fun elements selector =>
               forEachPush (page_queryAll page selector)
                 (fun handle => Ok (extractElementInfo handle)) elements)
            locators [].

(** [elements.filter((element, index, self) =>
      index === self.findIndex((e) => e.suggested_locator === element.suggested_locator))] *)
Definition uniqueElements (elements : list PageElement) : list PageElement :=
  filterIndexed (fun element index self =>
      Z.eqb index
        (findIndex (fun e => String.eqb (suggested_locator e)
                                        (suggested_locator element)) self))
    elements.

Definition extractElements (page : Document) : list PageElement :=
  let elements := candidates page in
  uniqueElements elements.

(** ** Content Extractor *)

(** [handle.evaluate((el) => el.tagName.toLowerCase())] *)
Definition evaluateTagLower (handle : Dom) : result string :=
  evaluateTagName handle toLowerCase.

Definition headingBody (heading : Dom) : result (option PageElement) :=
  tagName ← evaluateTagLower heading;
  raw ← textContent heading;
  let textContent := trim <$> raw in
  id ← getAttribute heading "id";
  className ← getAttribute heading "class";
  match truthy textContent with
  | Some textContent =>
      Ok (Some {| role := "heading";
                  name_or_label := textContent;
                  suggested_locator :=
                    generateContentLocator "heading" textContent tagName id className;
                  tag_name := tagName;
                  text_content := Some textContent;
                  attributes := <["id" := orElse id EmptyString]>
                                (<["class" := orElse className EmptyString]> ∅) |})
  | None => Ok None
  end.

Definition paragraphBody (paragraph : Dom) : result (option PageElement) :=
  raw ← textContent paragraph;
  let textContent := trim <$> raw in
  id ← getAttribute paragraph "id";
  className ← getAttribute paragraph "class";
  match truthy textContent with
  | Some textContent =>
      if Nat.ltb 10 (String.length textContent) then
        let preview :=
          if Nat.ltb 50 (String.length textContent)
          then substring0 50 textContent +:+ "..."
          else textContent in
        Ok (Some {| role := "paragraph";
                    name_or_label := preview;
                    suggested_locator :=
                      generateContentLocator "paragraph" textContent "p" id className;
                    tag_name := "p";
                    text_content := Some textContent;
                    attributes := <["id" := orElse id EmptyString]>
                                  (<["class" := orElse className EmptyString]> ∅) |})
      else Ok None
  | None => Ok None
  end.

Definition listBody (list : Dom) : result (option PageElement) :=
  tagName ← evaluateTagLower list;
  items ← queryAll list [SelTag "li"];
  id ← getAttribute list "id";
  className ← getAttribute list "class";
  match items with
  | item0 :: _ =>
      raw ← textContent item0;
      let firstItemText := orElse (trim <$> raw) EmptyString in
      let listType := if String.eqb tagName "ul" then "unordered" else "ordered" in
      Ok (Some {| role := "list";
                  name_or_label :=
                    listType +:+ " list with " +:+ ofNumber (length items) +:+ " items";
                  suggested_locator :=
                    generateContentLocator "list" firstItemText tagName id className;
                  tag_name := tagName;
                  text_content :=
                    Some ("List with " +:+ ofNumber (length items)
                          +:+ " items. First item: " +:+ firstItemText);
                  attributes := <["id" := orElse id EmptyString]>
                                (<["class" := orElse className EmptyString]>
                                 (<["type" := listType]> ∅)) |})
  | [] => Ok None
  end.

Definition tableBody (table : Dom) : result (option PageElement) :=
  captionElement ← queryFirst table [SelTag "caption"];
  caption ← match captionElement with
            | Some c => textContent c
            | None => Ok None
            end;
  rows ← queryAll table [SelTag "tr"];
  id ← getAttribute table "id";
  className ← getAttribute table "class";
  Ok (Some {| role := "table";
              name_or_label :=
                orElse caption ("Table with " +:+ ofNumber (length rows) +:+ " rows");
              suggested_locator :=
                generateContentLocator "table" (orElse caption EmptyString) "table" id className;
              tag_name := "table";
              text_content := Some ("Table with " +:+ ofNumber (length rows) +:+ " rows");
              attributes := <["id" := orElse id EmptyString]>
                            (<["class" := orElse className EmptyString]> ∅) |}).

(** [src?.split("/").pop()] inside a template literal. *)
Definition srcBasename (src : option string) : string :=
  match src with
  | Some s => default EmptyString (last (split "/" s))
  | None => "undefined"
  end.

Definition imageBody (img : Dom) : result (option PageElement) :=
  alt ← getAttribute img "alt";
  src ← getAttribute img "src";
  id ← getAttribute img "id";
  className ← getAttribute img "class";
  if bool_decide (is_Some (truthy alt)) || bool_decide (is_Some (truthy src)) then
    Ok (Some {| role := "image";
                name_or_label := orElse alt ("Image: " +:+ srcBasename src);
                suggested_locator :=
                  generateContentLocator "image" (orElse alt EmptyString) "img" id className;
                tag_name := "img";
                text_content := Some (orElse alt EmptyString);
                attributes := <["id" := orElse id EmptyString]>
                              (<["class" := orElse className EmptyString]>
                               (<["src" := orElse src EmptyString]>
                                (<["alt" := orElse alt EmptyString]> ∅))) |})
  else Ok None.

Definition headingSelector : Selector :=
  [SelTag "h1"; SelTag "h2"; SelTag "h3"; SelTag "h4"; SelTag "h5"; SelTag "h6"].

Definition extractContentElements (page : Document) : list PageElement :=
  let elements := [] in
  let elements := forEachPush (page_queryAll page headingSelector) headingBody elements in
  let elements := forEachPush (page_queryAll page [SelTag "p"]) paragraphBody elements in
  let elements := forEachPush (page_queryAll page [SelTag "ul"; SelTag "ol"]) listBody elements in
  let elements := forEachPush (page_queryAll page [SelTag "table"]) tableBody elements in
  let elements := forEachPush (page_queryAll page [SelTag "img"]) imageBody elements in
  elements.

(** ** Structure Summarizer *)

Definition structuralTags : list string :=
  ["main"; "section"; "article"; "nav"; "header"; "footer"; "form"; "div"].

(** ["  ".repeat(depth)] *)
Fixpoint indent (depth : nat) : string :=
  match depth with
  | O => EmptyString
  | S d => "  " +:+ indent d
  end.

Fixpoint getStructure (element : Dom) (depth : nat) : string :=
  match element with
  | TextNode _ => EmptyString
  | Element tagName attrs _ children =>
      if Nat.ltb 3 depth then EmptyString
      else
        let tag := toLowerCase tagName in
        let id := match truthy (assoc "id" attrs) with
                  | Some i => "#" +:+ i
                  | None => EmptyString
                  end in
        let classes := match truthy (assoc "class" attrs) with
                       | Some c => "." +:+ String.concat "." (split " " c)
                       | None => EmptyString
                       end in
        let text := orElse (Some (substring0 30 (trim (text_of element)))) EmptyString in
        let result := indent depth +:+ tag +:+ id +:+ classes in
        let result := if nonEmpty text && Nat.ltb depth 2
                      then result +:+ " " +:+ dquote +:+ text +:+ dquote
                      else result in
        let result := result +:+ String (ascii_of_nat 10) EmptyString in
        if bool_decide (tag ∈ structuralTags) then
          result +:+
          (fix visit (cs : list Dom) (room : nat) : string :=
             match cs, room with
             | TextNode _ :: cs', _ => visit cs' room
             | (Element _ _ _ _ as child) :: cs', S room' =>
                 getStructure child (depth + 1) +:+ visit cs' room'
             | _, _ => EmptyString
             end) children 5
        else result
  end.

(** [page.evaluate(() => getStructure(document.body))]; the script
    throws inside the page when the document has no body. *)
Definition getPageStructure (page : Document) : result string :=
  match body page with
  | Some b => Ok (getStructure b 0)
  | None => Throw EvaluateError
  end.

(** ** Action Inferencer *)

Definition isSubmitName (el : PageElement) : bool :=
  includes (toLowerCase (name_or_label el)) "submit"
  || includes (toLowerCase (name_or_label el)) "sign in"
  || includes (toLowerCase (name_or_label el)) "login"
  || includes (toLowerCase (name_or_label el)) "save".

(** [actions.push(label)] when [matching.length > 0]. *)
Definition pushIfAny (matching : list PageElement) (label : string)
    (actions : list string) : list string :=
  if Nat.ltb 0 (length matching) then (actions ++ [label])%list else actions.

Definition hasRole (r : string) (el : PageElement) : bool := String.eqb (role el) r.

Definition inferActions (formFields interactiveElements contentElements : list PageElement)
    : list string :=
  let actions := [] in
  let actions := pushIfAny formFields "fill form fields" actions in
  let submitButtons := List.filter isSubmitName interactiveElements in
  let actions := pushIfAny submitButtons "submit form" actions in
  let links := List.filter (hasRole "link") interactiveElements in
  let actions := pushIfAny links "navigate via links" actions in
  let buttons :=
    List.filter (fun el =>
        String.eqb (role el) "button"
        && negb (existsb (fun sb => String.eqb (suggested_locator sb)
                                              (suggested_locator el))
                         submitButtons))
      interactiveElements in
  let actions := pushIfAny buttons "interact with buttons" actions in
  let headings := List.filter (hasRole "heading") contentElements in
  let actions := pushIfAny headings "verify page headings" actions in
  let paragraphs := List.filter (hasRole "paragraph") contentElements in
  let actions := pushIfAny paragraphs "verify text content" actions in
  let lists := List.filter (hasRole "list") contentElements in
  let actions := pushIfAny lists "verify list content" actions in
  let tables := List.filter (hasRole "table") contentElements in
  let actions := pushIfAny tables "verify table data" actions in
  let images := List.filter (hasRole "image") contentElements in
  let actions := pushIfAny images "verify images" actions in
  actions.

(** ** Browser Session Manager and Page Analysis Aggregator *)

(** What the outside world decides: which document a URL loads (none on
    a navigation failure) and whether launching a browser or opening a
    page succeeds. *)
Record World := {
  web : string -> option Document;
  launch_ok : bool;
  newPage_ok : bool;
}.

(** The analyzer's field [browser] and the browser processes and page
    sessions currently open. Handles are numbers handed out in order. *)
Record State := {
  browser : option nat;
  open_browsers : gset nat;
  open_pages : gset nat;
  next_handle : nat;
}.

(** Asynchronous methods: state passing with rejection. The state
    reached when a method rejects is kept. *)
Definition M (A : Type) : Type := State -> result A * State.

Definition raise {A} (e : exn) : M A := fun s => (Throw e, s).

#[global] Instance M_ret : MRet M := fun A a s => (Ok a, s).
#[global] Instance M_bind : MBind M := fun A B k m s =>
  match m s with
  | (Ok a, s') => k a s'
  | (Throw e, s') => (Throw e, s')
  end.

(** [try { body } finally { cleanup }] *)
Definition tryFinally {A} (body : M A) (cleanup : M unit) : M A :=
  fun s => match body s with
           | (r, s') =>
               match cleanup s' with
               | (Ok _, s'') => (r, s'')
               | (Throw e, s'') => (Throw e, s'')
               end
           end.

Definition liftResult {A} (r : result A) : M A := fun s => (r, s).

Section Analyzer.

Variable world : World.

(** [chromium.launch({ headless: true })] *)
Definition launch : M nat :=
  fun s =>
    if launch_ok world then
      (Ok (next_handle s),
       {| browser := browser s;
          open_browsers := {[next_handle s]} ∪ open_browsers s;
          open_pages := open_pages s;
          next_handle := S (next_handle s) |})
    else (Throw LaunchError, s).

(** [browser.newPage()] *)
Definition newPage (b : nat) : M nat :=
  fun s =>
    if bool_decide (b ∈ open_browsers s) && newPage_ok world then
      (Ok (next_handle s),
       {| browser := browser s;
          open_browsers := open_browsers s;
          open_pages := {[next_handle s]} ∪ open_pages s;
          next_handle := S (next_handle s) |})
    else (Throw TargetClosed, s).

(** [page.goto(url, { waitUntil: "networkidle" })]; on success the page
    shows the returned document until it is closed. *)
Definition goto (page : nat) (url : string) : M Document :=
  fun s =>
    if bool_decide (page ∈ open_pages s) then
      match web world url with
      | Some doc => (Ok doc, s)
      | None => (Throw NavigationError, s)
      end
    else (Throw TargetClosed, s).

(** [page.close()] *)
Definition closePage (page : nat) : M unit :=
  fun s =>
    (Ok tt,
     {| browser := browser s;
        open_browsers := open_browsers s;
        open_pages := open_pages s ∖ {[page]};
        next_handle := next_handle s |}).

(** [browser.close()] *)
Definition closeBrowser (b : nat) : M unit :=
  fun s =>
    (Ok tt,
     {| browser := browser s;
        open_browsers := open_browsers s ∖ {[b]};
        open_pages := open_pages s;
        next_handle := next_handle s |}).

Definition getBrowser : M (option nat) := fun s => (Ok (browser s), s).

Definition setBrowser (b : option nat) : M unit :=
  fun s =>
    (Ok tt,
     {| browser := b;
        open_browsers := open_browsers s;
        open_pages := open_pages s;
        next_handle := next_handle s |}).

(** [initialize] is suspended once, at [await chromium.launch(...)].
    Its first stretch tests [this.browser] and, finding none, calls
    [chromium.launch]; its second stretch, [launched], runs when the
    launch has settled and assigns the browser to [this.browser]. *)
Definition launched : M unit :=
  b ← launch; setBrowser (Some b).

(** A call of [initialize] during which no other call runs: the two
    stretches in sequence. Calls that overlap are followed stretch by
    stretch with [initializeStep] and [overlapped] below. *)
Definition initialize : M unit :=
  current ← getBrowser;
  match current with
  | Some _ => mret tt
  | None => launched
  end.

(** A call of [initialize] stretch by stretch: another call can run
    between the test and the assignment. *)
Inductive InitPhase :=
| Entered                       (* called, nothing run yet *)
| Launching                     (* no browser found, launch pending *)
| Settled (r : result unit).    (* the promise of [initialize] has settled *)

Definition initializeStep (phase : InitPhase) (s : State) : InitPhase * State :=
  match phase with
  | Entered =>
      match browser s with
      | Some _ => (Settled (Ok tt), s)
      | None => (Launching, s)
      end
  | Launching => let (r, s') := launched s in (Settled r, s')
  | Settled r => (Settled r, s)
  end.

(** Two calls of [initialize] that overlap: [schedule] tells which call
    runs its next stretch, [false] the first call and [true] the second. *)
Fixpoint overlapped (schedule : list bool) (first second : InitPhase) (s : State)
    : InitPhase * InitPhase * State :=
  match schedule with
  | [] => (first, second, s)
  | false :: rest =>
      let (first', s') := initializeStep first s in overlapped rest first' second s'
  | true :: rest =>
      let (second', s') := initializeStep second s in overlapped rest first second' s'
  end.

Definition isFormField (el : PageElement) : bool :=
  bool_decide (role el ∈ ["textbox"; "input"; "textarea"; "combobox"; "listbox"])
  || bool_decide (toLowerCase (tag_name el) ∈ ["input"; "textarea"; "select"]).

Definition isInteractive (el : PageElement) : bool :=
  bool_decide (role el ∈ ["button"; "link"; "checkbox"; "radio"; "switch"])
  || bool_decide (toLowerCase (tag_name el) ∈ ["button"; "a"]).

Definition isNavigation (el : PageElement) : bool :=
  String.eqb (role el) "link"
  || (String.eqb (toLowerCase (tag_name el)) "a"
      && bool_decide (is_Some (truthy (attributes el !! "href"))))
  || String.eqb (role el) "navigation".

Definition analyzePage (url : string) : M PageAnalysis :=
  initialize;;
  current ← getBrowser;
  page ← match current with
         | Some b => newPage b
         | None => raise TargetClosed
         end;
  tryFinally
    (doc ← goto page url;
     let title := doc_title doc in
     let elements := extractElements doc in
     let contentElements := extractContentElements doc in
     let formFields := List.filter isFormField elements in
     let interactiveElements := List.filter isInteractive elements in
     let navigationElements := List.filter isNavigation elements in
     pageStructure ← liftResult (getPageStructure doc);
     let highLevelActions :=
       inferActions formFields interactiveElements contentElements in
     mret {| url := url;
            title := title;
            high_level_actions := highLevelActions;
            key_elements := elements;
            page_structure := pageStructure;
            form_fields := formFields;
            interactive_elements := interactiveElements;
            navigation_elements := navigationElements;
            content_elements := contentElements |})
    (closePage page).

Definition close : M unit :=
  current ← getBrowser;
  match current with
  | Some b => closeBrowser b;; setBrowser None
  | None => mret tt
  end.

End Analyzer.

(** ** The specification's tables, written from its wording *)

(** Role table of the Role Classifier: explicit role first, then the tag
    mapping, [input] by its [type], every other tag [generic]. *)
Definition tagRoles : list (string * string) :=
  [("button", "button"); ("a", "link"); ("select", "combobox"); ("textarea", "textbox")].

Definition inputTypeRoles : list (string * string) :=
  [("text", "textbox"); ("email", "textbox"); ("password", "textbox");
   ("search", "textbox"); ("checkbox", "checkbox"); ("radio", "radio");
   ("submit", "button")].

Definition roleTable (explicitRole : option string) (tag : string)
    (type : option string) : string :=
  match explicitRole with
  | Some r => r
  | None =>
      if String.eqb tag "input"
      then default "textbox" (type ≫= fun ty => assoc ty inputTypeRoles)
      else default "generic" (assoc tag tagRoles)
  end.

(** First non-empty entry of a priority chain, or the fallback. *)
Fixpoint firstNonEmpty (chain : list string) (fallback : string) : string :=
  match chain with
  | [] => fallback
  | s :: rest => if nonEmpty s then s else firstNonEmpty rest fallback
  end.

(** Priority chain of the Name/Label Resolver over the recorded
    attributes and the text content of the node; an entry that is
    missing counts as empty. *)
Definition nameChain (attributes : gmap string string)
    (textContent : option string) : list string :=
  [ default EmptyString (attributes !! "aria-label");
    default EmptyString (attributes !! "data-testid");
    default EmptyString (attributes !! "placeholder");
    default EmptyString (trim <$> textContent);
    default EmptyString (attributes !! "name");
    default EmptyString (attributes !! "id");
    default EmptyString (attributes !! "href") ].

(** Rules of the Locator Synthesizer for interactive elements, in
    priority order; a rule that does not apply is [None]. *)
Definition interactiveRules (role name : string)
    (attributes : gmap string string) (tag : string) : list (option string) :=
  [ (fun v => "page.getByTestId('" +:+ v +:+ "')") <$> attributes !! "data-testid";
    (fun v => "page.getByLabel('" +:+ v +:+ "')") <$> attributes !! "aria-label";
    if bool_decide ((role = "button" ∨ role = "link") ∧ name ≠ "unnamed element")
    then Some ("page.getByRole('" +:+ role +:+ "', { name: '" +:+ name +:+ "' })")
    else None;
    if bool_decide (role = "textbox")
    then (fun v => "page.getByPlaceholder('" +:+ v +:+ "')") <$> attributes !! "placeholder"
    else None;
    if bool_decide (role = "textbox")
    then (fun v => "page.getByLabel('" +:+ v +:+ "')") <$> attributes !! "aria-label"
    else None;
    (fun v => "page.locator('[name=" +:+ dquote +:+ v +:+ dquote +:+ "]')")
      <$> attributes !! "name";
    (fun v => "page.locator('#" +:+ v +:+ "')") <$> attributes !! "id";
    Some ("page.locator('" +:+ tag +:+ "')") ].

(** The first rule that applies. *)
Fixpoint firstApplicable (rules : list (option string)) : option string :=
  match rules with
  | [] => None
  | Some l :: _ => Some l
  | None :: rest => firstApplicable rest
  end.

(** An attributes map as the attribute loop builds it: no empty value. *)
Definition nonEmptyValues (attributes : gmap string string) : Prop :=
  ∀ k v, attributes !! k = Some v → v ≠ EmptyString.

(** The entries of an attributes map that the analyzer's tests
    ([if (attributes.id)]) take as present: those with a non-empty value. *)
Definition recorded (attributes : gmap string string) : gmap string string :=
  filter (fun entry => entry.2 ≠ EmptyString) attributes.

(** What one iteration of an extraction loop pushes, if anything. *)
Definition pushedBy (body : Dom -> result (option PageElement))
    (handle : Dom) : option PageElement :=
  match body handle with
  | Ok (Some element) => Some element
  | Ok None | Throw _ => None
  end.

(** The roles the Content Extractor assigns. *)
Definition contentRoles : list string :=
  ["heading"; "paragraph"; "list"; "table"; "image"].

(** ** Example pages *)

Definition elem (tagName : string) (attrs : list (string * string))
    (children : list Dom) : Dom :=
  Element tagName attrs false children.

Definition pageOf (children : list Dom) : Document :=
  {| doc_title := "Example";
     doc_root := elem "HTML" [] [elem "BODY" [] children] |}.

(** A heading whose id holds a single quote, a heading whose text does,
    and a list whose first item does. *)
Definition quotedPage : Document :=
  pageOf [ elem "H1" [("id", "o'k")] [TextNode "Title"];
           elem "H2" [] [TextNode "it's"];
           elem "UL" [] [elem "LI" [] [TextNode "it's"]] ].

(** A heading that also carries an ARIA role and an id. *)
Definition roleHeading : Dom :=
  elem "H1" [("role", "checkbox"); ("id", "x")] [TextNode "Hi"].

(** An input with both a test id and an accessible label, and the
    attributes the loop records for it. *)
Definition emailInput : Dom :=
  elem "INPUT" [("type", "email"); ("data-testid", "email");
                ("aria-label", "Email address")] [].

Definition emailAttributes : gmap string string :=
  {[ "type" := "email"; "data-testid" := "email"; "aria-label" := "Email address" ]}.

(** An input whose [role] and [id] attributes are present but empty. *)
Definition emptyAttrInput : Dom :=
  elem "INPUT" [("role", EmptyString); ("id", EmptyString); ("name", "q")] [].

Definition exampleWorld (doc : Document) : World :=
  {| web := fun url => if String.eqb url "https://example.test/" then Some doc else None;
     launch_ok := true;
     newPage_ok := true |}.

Definition initialState : State :=
  {| browser := None; open_browsers := ∅; open_pages := ∅; next_handle := 0 |}.

(** Deduplication as the specification words it: walking the candidates
    in extraction order, an element is retained when no earlier one had
    its locator. *)
Fixpoint keepFirst (seen : list string) (l : list PageElement) : list PageElement :=
  match l with
  | [] => []
  | e :: rest =>
      if bool_decide (suggested_locator e ∈ seen) then keepFirst seen rest
      else e :: keepFirst (suggested_locator e :: seen) rest
  end.

Definition hasLocator (locator : string) (e : PageElement) : bool :=
  String.eqb (suggested_locator e) locator.

Definition exampleUrl : string := "https://example.test/".

(** Two candidates with the same locator, told apart by their class. *)
Definition firstOk : PageElement :=
  {| role := "button";
     name_or_label := "OK";
     suggested_locator := "page.getByRole('button', { name: 'OK' })";
     text_content := Some "OK";
     tag_name := "button";
     attributes := {[ "class" := "first" ]} |}.

Definition secondOk : PageElement :=
  {| role := "button";
     name_or_label := "OK";
     suggested_locator := "page.getByRole('button', { name: 'OK' })";
     text_content := Some "OK";
     tag_name := "button";
     attributes := {[ "class" := "second" ]} |}.

(** Triggers of the Action Inferencer, in the fixed evaluation order:
    each label with the condition under which it is appended. *)
Definition actionTriggers (formFields interactiveElements contentElements : list PageElement)
    : list (string * bool) :=
  [ ("fill form fields", bool_decide (formFields ≠ []));
    ("submit form", existsb isSubmitName interactiveElements);
    ("navigate via links", existsb (hasRole "link") interactiveElements);
    ("interact with buttons",
     existsb (fun el =>
        hasRole "button" el
        && negb (existsb (fun sb => isSubmitName sb
                                    && String.eqb (suggested_locator sb)
                                                  (suggested_locator el))
                         interactiveElements))
       interactiveElements);
    ("verify page headings", existsb (hasRole "heading") contentElements);
    ("verify text content", existsb (hasRole "paragraph") contentElements);
    ("verify list content", existsb (hasRole "list") contentElements);
    ("verify table data", existsb (hasRole "table") contentElements);
    ("verify images", existsb (hasRole "image") contentElements) ].

(** The labels whose trigger holds, in order. *)
Fixpoint triggered (triggers : list (string * bool)) : list string :=
  match triggers with
  | [] => []
  | (label, true) :: rest => label :: triggered rest
  | (_, false) :: rest => triggered rest
  end.

(** The content element of a heading reading Welcome. *)
Definition welcomeHeading : PageElement :=
  {| role := "heading";
     name_or_label := "Welcome";
     suggested_locator := "page.getByRole('heading', { name: 'Welcome' })";
     text_content := Some "Welcome";
     tag_name := "h1";
     attributes := {[ "id" := EmptyString; "class" := EmptyString ]} |}.

(** States the analyzer can be in: its browser handle, when set, is an
    open browser, and every open page was handed out earlier. *)
Definition wfState (s : State) : Prop :=
  (∀ b, browser s = Some b → b ∈ open_browsers s)
  ∧ (∀ h, h ∈ open_pages s → h < next_handle s).

(** A method that leaves the state as it found it. *)
Definition stateless {A} (m : M A) : Prop := ∀ s, (m s).2 = s.

(** The state after [page.close()]. *)
Definition withoutPage (page : nat) (s : State) : State :=
  {| browser := browser s;
     open_browsers := open_browsers s;
     open_pages := open_pages s ∖ {[page]};
     next_handle := next_handle s |}.

(** The [li] elements below a list, as [list.$$("li")] finds them, and
    the [li] elements that are its children. *)
Definition liDescendants (node : Dom) : list Dom :=
  List.filter (matches [SelTag "li"]) (descendants node).

Definition liChildren (node : Dom) : list Dom :=
  match node with
  | TextNode _ => []
  | Element _ _ _ children => List.filter (matches [SelTag "li"]) children
  end.

(** A list of three items whose first item holds a nested list. *)
Definition nestedList : Dom :=
  elem "UL" []
    [ elem "LI" [] [TextNode "Fruit"; elem "OL" [] [elem "LI" [] [TextNode "Apple"]]];
      elem "LI" [] [TextNode "Bread"];
      elem "LI" [] [TextNode "Milk"] ].

(** A flat list of three items. *)
Definition flatList : Dom :=
  elem "UL" []
    [ elem "LI" [] [TextNode " Fruit "];
      elem "LI" [] [TextNode "Bread"];
      elem "LI" [] [TextNode "Milk"] ].

(** Escaping as the specification requires it: no occurrence of the
    quote character [q] in an embedded text is left without a backslash
    immediately before it. [bareQuote] finds such an occurrence. *)
Fixpoint bareQuote (q : ascii) (afterBackslash : bool) (s : string) : bool :=
  match s with
  | EmptyString => false
  | String c rest =>
      (Ascii.eqb c q && negb afterBackslash)
      || bareQuote q (Ascii.eqb c "\"%char) rest
  end.

(** ** Auxiliary notions for the remaining passes *)

(** Occurrence of a character in a string. *)
Fixpoint occurs (c : ascii) (s : string) : bool :=
  match s with
  | EmptyString => false
  | String x rest => Ascii.eqb x c || occurs c rest
  end.

(** The text a paragraph locator embeds: at most 20 characters. *)
Definition paragraphSeed (text : string) : string := substring0 20 text.

(** The [caption] descendants and the [tr] descendants of a table. *)
Definition captionsOf (table : Dom) : list Dom :=
  List.filter (matches [SelTag "caption"]) (descendants table).

Definition rowsOf (table : Dom) : list Dom :=
  List.filter (matches [SelTag "tr"]) (descendants table).


(** The element children of a node, as [element.children] lists them. *)
Definition isElement (d : Dom) : bool :=
  match d with
  | TextNode _ => false
  | Element _ _ _ _ => true
  end.

Definition elementChildren (children : list Dom) : list Dom :=
  List.filter isElement children.

(** One line of the structure summary: indentation, tag, [#id], the
    classes with a dot for every space, and up to 30 characters of text
    at depths 0 and 1. *)
Definition structureLine (tagName : string) (attrs : list (string * string))
    (text : string) (depth : nat) : string :=
  indent depth +:+ toLowerCase tagName
  +:+ match truthy (assoc "id" attrs) with
      | Some i => "#" +:+ i
      | None => EmptyString
      end
  +:+ match truthy (assoc "class" attrs) with
      | Some c => "." +:+ replaceAll " " "." c
      | None => EmptyString
      end
  +:+ (if nonEmpty (substring0 30 (trim text)) && Nat.ltb depth 2
       then " " +:+ dquote +:+ substring0 30 (trim text) +:+ dquote
       else EmptyString)
  +:+ String (ascii_of_nat 10) EmptyString.

(** The action labels in evaluation order. *)
Definition actionLabels : list string :=
  [ "fill form fields"; "submit form"; "navigate via links";
    "interact with buttons"; "verify page headings"; "verify text content";
    "verify list content"; "verify table data"; "verify images" ].

(** The analysis of a loaded document with body [b]. *)
Definition analysisOf (url : string) (doc : Document) (b : Dom) : PageAnalysis :=
  {| url := url;
     title := doc_title doc;
     high_level_actions :=
       inferActions (List.filter isFormField (extractElements doc))
         (List.filter isInteractive (extractElements doc))
         (extractContentElements doc);
     key_elements := extractElements doc;
     page_structure := getStructure b 0;
     form_fields := List.filter isFormField (extractElements doc);
     interactive_elements := List.filter isInteractive (extractElements doc);
     navigation_elements := List.filter isNavigation (extractElements doc);
     content_elements := extractContentElements doc |}.

(** The triggers that read the content elements. *)
Definition contentTriggers (contentElements : list PageElement) : list (string * bool) :=
  [ ("verify page headings", existsb (hasRole "heading") contentElements);
    ("verify text content", existsb (hasRole "paragraph") contentElements);
    ("verify list content", existsb (hasRole "list") contentElements);
    ("verify table data", existsb (hasRole "table") contentElements);
    ("verify images", existsb (hasRole "image") contentElements) ].

(** The condition recorded for a label in a trigger table. *)
Fixpoint lookupTrigger (label : string) (triggers : list (string * bool)) : bool :=
  match triggers with
  | [] => false
  | (l, b) :: rest => if String.eqb l label then b else lookupTrigger label rest
  end.

(** ** Scenario generation ([openaiService.ts])

    The completion request and [JSON.parse] belong to the outside world:
    the outcome of the request (the content of the first choice, or a
    rejection) and the parser are taken as given. *)

Module Scenarios.

Inductive StepType := Given | When | Then | And | But.

Record ScenarioStep := { type : StepType; text : string }.

Record BDDScenario := {
  scenario_name : string;
  scenario_tags : list string;
  steps : list ScenarioStep;
}.

Record BDDFeature := {
  feature_name : string;
  description : option string;
  feature_tags : list string;
  scenarios : list BDDScenario;
}.

(** A promise that settled: fulfilled with a value or rejected. *)
Inductive settled (A : Type) : Type :=
| Fulfilled (a : A)
| Rejected (message : string).
Arguments Fulfilled {A} a.
Arguments Rejected {A} message.

Definition navigateStep (pageAnalysis : PageAnalysis) : ScenarioStep :=
  {| type := Given;
     text := "I navigate to " +:+ dquote +:+ url pageAnalysis +:+ dquote |}.

Definition generateFallbackScenarios (userStory : string)
    (pageAnalysis : PageAnalysis) : BDDFeature :=
  let isLoginPage :=
    includes (toLowerCase userStory) "login"
    || existsb (fun field => includes (toLowerCase (name_or_label field)) "password")
         (form_fields pageAnalysis) in
  if isLoginPage then
    {| feature_name := "User Authentication";
       description := Some "Test user login functionality";
       feature_tags := ["@smoke"; "@auth"];
       scenarios :=
         [ {| scenario_name := "Successful login with valid credentials";
              scenario_tags := ["@positive"; "@critical"];
              steps :=
                [ navigateStep pageAnalysis;
                  {| type := When; text := "I fill in the email field with valid email" |};
                  {| type := And;
                     text := "I fill in the password field with valid password" |};
                  {| type := And; text := "I click the login button" |};
                  {| type := Then; text := "I should be redirected to the dashboard" |};
                  {| type := And; text := "I should see a welcome message" |} ] |};
           {| scenario_name := "Failed login with invalid credentials";
              scenario_tags := ["@negative"];
              steps :=
                [ navigateStep pageAnalysis;
                  {| type := When; text := "I fill in the email field with invalid email" |};
                  {| type := And;
                     text := "I fill in the password field with invalid password" |};
                  {| type := And; text := "I click the login button" |};
                  {| type := Then; text := "I should see an error message" |};
                  {| type := And; text := "I should remain on the login page" |} ] |} ] |}
  else
    {| feature_name := "Page Functionality";
       description := Some "Test basic page functionality";
       feature_tags := ["@smoke"];
       scenarios :=
         [ {| scenario_name := "Page loads successfully";
              scenario_tags := ["@positive"];
              steps :=
                [ navigateStep pageAnalysis;
                  {| type := Then;
                     text := "I should see the page title " +:+ dquote
                             +:+ title pageAnalysis +:+ dquote |};
                  {| type := And; text := "The page should load completely" |} ] |} ] |}.

(** [generateScenarios]: [create] is the settled completion request,
    giving [completion.choices[0]?.message?.content]. *)
Definition generateScenarios (create : settled (option string))
    (JSON_parse : string -> settled BDDFeature)
    (userStory : string) (pageAnalysis : PageAnalysis) : settled BDDFeature :=
  let attempt :=
    match create with
    | Rejected message => Rejected message
    | Fulfilled content =>
        match truthy content with
        | None => Rejected "No response from OpenAI"
        | Some content => JSON_parse content
        end
    end in
  match attempt with
  | Fulfilled feature => Fulfilled feature
  | Rejected _ => Fulfilled (generateFallbackScenarios userStory pageAnalysis)
  end.

End Scenarios.

(** ** Further example pages *)

(** A page with a heading, a link, a plain container carrying a test
    id, a submit button, another button and a text input. *)
Definition samplePage : Document :=
  pageOf
    [ elem "H1" [] [TextNode "Orders"];
      elem "A" [("href", "/docs")] [TextNode "Docs"];
      elem "DIV" [("data-testid", "banner")] [TextNode "Welcome back"];
      elem "BUTTON" [] [TextNode "Save"];
      elem "BUTTON" [] [TextNode "OK"];
      elem "INPUT" [("type", "text"); ("name", "q")] [] ].

Definition sampleTable : Dom :=
  elem "TABLE" []
    [ elem "CAPTION" [] [TextNode "Prices"];
      elem "TR" [] [elem "TD" [] [TextNode "1"]];
      elem "TR" [] [elem "TD" [] [TextNode "2"]] ].

(** Five children with text and a sixth, empty one. *)
Definition fiveSections : list Dom :=
  [ elem "SECTION" [] [TextNode "a"]; elem "SECTION" [] [TextNode "b"];
    elem "SECTION" [] [TextNode "c"]; elem "SECTION" [] [TextNode "d"];
    elem "SECTION" [] [TextNode "e"] ].

Definition unreachableUrl : string := "https://unreachable.test/".


Definition welcomeNode : Dom :=
  elem "H1" [("id", "welcome")] [TextNode " Welcome "].

Definition longParagraph : Dom :=
  elem "P" [] [TextNode "It's a long paragraph of more than fifty characters in all."].

Definition logoImage : Dom := elem "IMG" [("src", "/img/logo.png")] [].

(** The content element of [logoImage]. *)
Definition logoElement : PageElement :=
  {| role := "image";
     name_or_label := "Image: logo.png";
     suggested_locator := "page.locator('img')";
     text_content := Some EmptyString;
     tag_name := "img";
     attributes := {[ "id" := EmptyString; "class" := EmptyString;
                      "src" := "/img/logo.png"; "alt" := EmptyString ]} |}.

(** * Properties *)

#[local] Arguments String.eqb : simpl never.
#[local] Set Warnings "-clear-no-such-hyp".

(** ** Truthiness *)

Lemma truthy_Some (v : option string) (s : string) :
  truthy v = Some s ↔ v = Some s ∧ s ≠ EmptyString.
Proof.
  destruct v as [[|c r]|]; simpl; split; try (intros [? ?]); try intros ?;
    simplify_eq; try done.
Qed.

Lemma truthy_None (v : option string) :
  truthy v = None ↔ v = None ∨ v = Some EmptyString.
Proof.
  destruct v as [[|c r]|]; simpl; split; intros; try done; eauto;
    destruct_or!; simplify_eq.
Qed.

Lemma truthy_nonEmptyValues (attributes : gmap string string) (k : string) :
  nonEmptyValues attributes → truthy (attributes !! k) = attributes !! k.
Proof.
  intros Hne. destruct (attributes !! k) as [[|c r]|] eqn:E; try done.
  by destruct (Hne _ _ E).
Qed.

Lemma orElse_default (v : option string) :
  orElse v EmptyString = default EmptyString v.
Proof. by destruct v as [[|c r]|]. Qed.

Lemma nonEmpty_true (s : string) : nonEmpty s = true ↔ s ≠ EmptyString.
Proof. destruct s; simpl; split; intros; done. Qed.

Lemma eqb_decide (a b : string) : String.eqb a b = bool_decide (a = b).
Proof.
  destruct (String.eqb_spec a b).
  - by rewrite bool_decide_eq_true_2.
  - by rewrite bool_decide_eq_false_2.
Qed.

(** ** Role Classifier *)

(** The classifier agrees with the table whenever the recorded role is
    not the empty string. *)
Lemma inferRole_roleTable handle tagName (attributes : gmap string string) :
  attributes !! "role" ≠ Some EmptyString →
  inferRole handle tagName attributes
  = roleTable (attributes !! "role") (toLowerCase tagName) (attributes !! "type").
Proof.
  intros Hrole. unfold inferRole, roleTable.
  destruct (attributes !! "role") as [[|c r]|]; [done|done|]. simpl.
  generalize (toLowerCase tagName) as tag; intros tag.
  unfold tagRoles, inputTypeRoles.
  destruct (attributes !! "type") as [ty|]; simpl;
    rewrite !eqb_decide; repeat case_bool_decide; subst; simpl; done.
Qed.

(** ** Handles and recorded attributes *)

Lemma live_Ok (handle h : Dom) :
  live handle = Ok h ↔ h = handle ∧ ∃ t a cs, handle = Element t a false cs.
Proof.
  destruct handle as [d|t a [|] cs]; simpl; split; try done.
  - intros [_ (? & ? & ? & ?)]; done.
  - intros [_ (? & ? & ? & ?)]; done.
  - intros [= <-]. eauto 10.
  - intros [-> _]. done.
Qed.

Lemma readAttributes_live t a cs names (m : gmap string string) :
  ∃ m', readAttributes (Element t a false cs) names m = Ok m'
        ∧ ∀ k, m' !! k = if bool_decide (k ∈ names)
                          then match truthy (assoc k a) with
                               | Some v => Some v
                               | None => m !! k
                               end
                          else m !! k.
Proof.
  revert m. induction names as [|n names IH]; intros m.
  - exists m. split; [done|]. intros k. by rewrite bool_decide_eq_false_2 by set_solver.
  - simpl.
    destruct (IH (match truthy (assoc n a) with
                  | Some v => <[n:=v]> m
                  | None => m
                  end)) as (m' & Hm' & Hlook).
    exists m'. split; [exact Hm'|]. intros k. rewrite Hlook.
    destruct (decide (k = n)) as [->|Hne].
    + rewrite (bool_decide_eq_true_2 (n ∈ n :: names)) by set_solver.
      destruct (truthy (assoc n a)) as [v|] eqn:E.
      * rewrite lookup_insert_eq. by case_bool_decide.
      * by case_bool_decide.
    + assert (bool_decide (k ∈ n :: names) = bool_decide (k ∈ names)) as ->.
      { apply bool_decide_ext. rewrite elem_of_cons. naive_solver. }
      destruct (truthy (assoc n a)); [by rewrite lookup_insert_ne|done].
Qed.

(** The attribute loop finishes only on a handle that can be read, and
    then records exactly the non-empty values of the listed attributes. *)
Lemma readAttributes_attrNames (handle : Dom) (attrs : gmap string string) :
  readAttributes handle attrNames ∅ = Ok attrs →
  ∀ k, attrs !! k = if bool_decide (k ∈ attrNames) then truthy (attr_of handle k) else None.
Proof.
  destruct handle as [d|t a [|] cs]; [done|done|].
  destruct (readAttributes_live t a cs attrNames ∅) as (m' & -> & Hlook).
  intros [= <-] k. rewrite Hlook, lookup_empty. cbn [attr_of].
  case_bool_decide; [|done]. by destruct (truthy (assoc k a)).
Qed.

Lemma readAttributes_nonEmptyValues (handle : Dom) (names : list string)
    (m attrs : gmap string string) :
  nonEmptyValues m → readAttributes handle names m = Ok attrs → nonEmptyValues attrs.
Proof.
  revert m. induction names as [|n names IH]; intros m Hm; simpl.
  - by intros [= <-].
  - destruct (getAttribute handle n) as [value|e]; [|done].
    cbn [mbind result_bind]. apply IH.
    destruct (truthy value) as [v|] eqn:E; [|done].
    apply truthy_Some in E as [_ Hv].
    intros k w. destruct (decide (k = n)) as [->|Hne].
    + rewrite lookup_insert_eq. by intros [= <-].
    + rewrite lookup_insert_ne by done. apply Hm.
Qed.

Lemma nonEmptyValues_empty : nonEmptyValues ∅.
Proof. intros k v. by rewrite lookup_empty. Qed.

Lemma recorded_lookup (attributes : gmap string string) (k : string) :
  recorded attributes !! k = truthy (attributes !! k).
Proof.
  unfold recorded. destruct (attributes !! k) as [v|] eqn:E.
  - destruct (decide (v = EmptyString)) as [->|Hv].
    + cbn [truthy]. apply map_lookup_filter_None. right.
      intros x Hx. rewrite E in Hx. injection Hx as <-. cbn. tauto.
    + assert (truthy (Some v) = Some v) as -> by by apply truthy_Some.
      by apply map_lookup_filter_Some.
  - cbn [truthy]. apply map_lookup_filter_None. by left.
Qed.

Lemma recorded_nonEmptyValues (attributes : gmap string string) :
  nonEmptyValues (recorded attributes).
Proof. intros k v. rewrite recorded_lookup. intros Hv%truthy_Some. tauto. Qed.

Lemma truthy_truthy (v : option string) : truthy (truthy v) = truthy v.
Proof. by destruct v as [[|c r]|]. Qed.

(** [handle.tagName()] throws before anything else is read, and the
    handler returns [null]. *)
Lemma extractElementInfo_null (handle : Dom) : extractElementInfo handle = None.
Proof. reflexivity. Qed.

(** C4. Role classification is a total function that agrees with the
    documented table: a recorded role wins, otherwise the tag decides,
    [input] by its [type], and every other tag is [generic]. The
    agreement holds for every attributes map whose role entry is not the
    empty string, which the attribute loop never records; over all maps,
    an empty role entry counts as no role. *)
Theorem inferRole_matches_table :
  (∀ handle tagName (attributes : gmap string string),
     attributes !! "role" ≠ Some EmptyString →
     inferRole handle tagName attributes
     = roleTable (attributes !! "role") (toLowerCase tagName) (attributes !! "type"))
  ∧ (∀ handle tagName (attributes : gmap string string),
       inferRole handle tagName attributes
       = roleTable (truthy (attributes !! "role")) (toLowerCase tagName)
           (attributes !! "type"))
  ∧ (∀ handle names (attributes : gmap string string),
       readAttributes handle names ∅ = Ok attributes →
       attributes !! "role" ≠ Some EmptyString).
Proof.
  split_and!.
  - apply inferRole_roleTable.
  - intros handle tagName attributes.
    destruct (attributes !! "role") as [[|c r]|] eqn:E.
    + unfold inferRole. rewrite E. cbn [truthy].
      pose proof (inferRole_roleTable handle tagName (delete "role" attributes)) as H.
      unfold inferRole in H. rewrite lookup_delete_eq in H. cbn [truthy] in H.
      rewrite lookup_delete_ne in H by done. apply H. done.
    + rewrite inferRole_roleTable by by rewrite E. by rewrite E.
    + rewrite inferRole_roleTable by by rewrite E. by rewrite E.
  - intros handle names attributes Hread E.
    by apply (readAttributes_nonEmptyValues _ _ _ _ nonEmptyValues_empty Hread _ _ E).
Qed.

Lemma inferRole_matches_table_witness :
  ({[ "type" := "checkbox" ]} : gmap string string) !! "role" ≠ Some EmptyString
  ∧ inferRole emailInput "INPUT" {[ "type" := "checkbox" ]} = "checkbox"
  ∧ readAttributes emptyAttrInput attrNames ∅ = Ok {[ "name" := "q" ]}
  ∧ ({[ "name" := "q" ]} : gmap string string) !! "role" ≠ Some EmptyString.
Proof.
  split; [done|]. split; [|split].
  - rewrite (proj1 inferRole_matches_table emailInput "INPUT" {[ "type" := "checkbox" ]});
      done.
  - vm_compute. reflexivity.
  - apply (proj2 (proj2 inferRole_matches_table) emptyAttrInput attrNames).
    vm_compute. reflexivity.
Defined.

(** ** Name/Label Resolver *)

Lemma getElementName_chain handle (attributes : gmap string string)
    (textContent : option string) :
  getElementName handle attributes textContent
  = firstNonEmpty
      [ default EmptyString (attributes !! "aria-label");
        default EmptyString (attributes !! "data-testid");
        default EmptyString (attributes !! "placeholder");
        default EmptyString (trim <$> textContent);
        default EmptyString (attributes !! "name");
        default EmptyString (attributes !! "id");
        default EmptyString (attributes !! "href") ]
      "unnamed element".
Proof.
  unfold getElementName.
  destruct (attributes !! "aria-label") as [[|??]|]; simpl; try done;
  destruct (attributes !! "data-testid") as [[|??]|]; simpl; try done;
  destruct (attributes !! "placeholder") as [[|??]|]; simpl; try done;
  (destruct textContent as [[|c r]|]; simpl;
   [ | destruct (trim (String c r)) as [|??]; simpl; try done | ]);
  destruct (attributes !! "name") as [[|??]|]; simpl; try done;
  destruct (attributes !! "id") as [[|??]|]; simpl; try done;
  destruct (attributes !! "href") as [[|??]|]; simpl; done.
Qed.

Lemma firstNonEmpty_nonEmpty (chain : list string) (fallback : string) :
  fallback ≠ EmptyString → firstNonEmpty chain fallback ≠ EmptyString.
Proof.
  intros Hf. induction chain as [|s chain IH]; simpl; [done|].
  destruct s; simpl; done.
Qed.

Lemma getElementName_nonEmpty handle (attributes : gmap string string) textContent :
  getElementName handle attributes textContent ≠ EmptyString.
Proof. rewrite getElementName_chain. by apply firstNonEmpty_nonEmpty. Qed.

(** C5. The name the resolver returns is the first non-empty entry of
    the chain aria-label, data-testid, placeholder, trimmed text content,
    name, id, href, and otherwise the literal fallback; it is never
    empty. *)
Theorem name_or_label_priority_chain handle (attributes : gmap string string)
    (textContent : option string) :
  getElementName handle attributes textContent
  = firstNonEmpty (nameChain attributes textContent) "unnamed element"
  ∧ getElementName handle attributes textContent ≠ EmptyString.
Proof. split; [apply getElementName_chain|apply getElementName_nonEmpty]. Qed.

(** ** Locator Synthesizer, interactive rule set *)

Lemma generateLocator_rules role name (attributes : gmap string string) tagName :
  nonEmptyValues attributes → name ≠ EmptyString →
  Some (generateLocator role name attributes tagName)
  = firstApplicable (interactiveRules role name attributes (toLowerCase tagName)).
Proof.
  intros Hne Hname. unfold generateLocator, interactiveRules.
  rewrite !truthy_nonEmptyValues by done.
  assert (nonEmpty name = true) as -> by by apply nonEmpty_true.
  rewrite !eqb_decide.
  destruct (attributes !! "data-testid"); [done|].
  destruct (attributes !! "aria-label"); [done|].
  cbn [fmap option_fmap option_map firstApplicable].
  destruct (decide (role = "button")) as [->|Hb].
  { rewrite (bool_decide_eq_true_2 ("button" = "button")) by done.
    destruct (decide (name = "unnamed element")) as [->|Hn].
    - rewrite (bool_decide_eq_false_2 (_ ∧ _)) by naive_solver.
      cbn.
      destruct (attributes !! "name"); [done|].
      by destruct (attributes !! "id").
    - rewrite (bool_decide_eq_false_2 (name = _)) by done.
      by rewrite (bool_decide_eq_true_2 (_ ∧ _)) by naive_solver. }
  rewrite (bool_decide_eq_false_2 (role = "button")) by done.
  destruct (decide (role = "link")) as [->|Hl].
  { rewrite (bool_decide_eq_true_2 ("link" = "link")) by done.
    destruct (decide (name = "unnamed element")) as [->|Hn].
    - rewrite (bool_decide_eq_false_2 (_ ∧ _)) by naive_solver.
      cbn.
      destruct (attributes !! "name"); [done|].
      by destruct (attributes !! "id").
    - rewrite (bool_decide_eq_false_2 (name = _)) by done.
      by rewrite (bool_decide_eq_true_2 (_ ∧ _)) by naive_solver. }
  rewrite (bool_decide_eq_false_2 (role = "link")) by done.
  rewrite (bool_decide_eq_false_2 (_ ∧ _)) by naive_solver.
  cbn [andb firstApplicable].
  case_bool_decide.
  - destruct (attributes !! "placeholder"); [done|]. cbn.
    destruct (attributes !! "name"); [done|].
    by destruct (attributes !! "id").
  - cbn. destruct (attributes !! "name"); [done|].
    by destruct (attributes !! "id").
Qed.

Lemma generateLocator_recorded role name (attributes : gmap string string) tagName :
  generateLocator role name (recorded attributes) tagName
  = generateLocator role name attributes tagName.
Proof. unfold generateLocator. by rewrite !recorded_lookup, !truthy_truthy. Qed.

(** C6. The synthesized locator is produced by the first applicable rule
    of the stated order, for every attributes map without empty values
    (the attribute loop records none) and every non-empty name (the
    resolver returns no other); over all maps, an empty value counts as a
    missing attribute. In particular a data-testid always gives the
    testid-based locator, also when an aria-label is present. *)
Theorem suggested_locator_priority :
  (∀ role name (attributes : gmap string string) tagName,
     nonEmptyValues attributes → name ≠ EmptyString →
     Some (generateLocator role name attributes tagName)
     = firstApplicable (interactiveRules role name attributes (toLowerCase tagName)))
  ∧ (∀ role name (attributes : gmap string string) tagName,
       name ≠ EmptyString →
       Some (generateLocator role name attributes tagName)
       = firstApplicable
           (interactiveRules role name (recorded attributes) (toLowerCase tagName)))
  ∧ (∀ role name (attributes : gmap string string) tagName v,
       attributes !! "data-testid" = Some v → v ≠ EmptyString →
       generateLocator role name attributes tagName
       = "page.getByTestId('" +:+ v +:+ "')")
  ∧ (∀ handle names (attributes : gmap string string),
       readAttributes handle names ∅ = Ok attributes → nonEmptyValues attributes)
  ∧ (∀ handle role (attributes : gmap string string) textContent tagName,
       Some (generateLocator role (getElementName handle attributes textContent)
               attributes tagName)
       = firstApplicable
           (interactiveRules role (getElementName handle attributes textContent)
              (recorded attributes) (toLowerCase tagName))).
Proof.
  assert (∀ role name (attributes : gmap string string) tagName,
       name ≠ EmptyString →
       Some (generateLocator role name attributes tagName)
       = firstApplicable
           (interactiveRules role name (recorded attributes) (toLowerCase tagName)))
    as Hrecorded.
  { intros role name attributes tagName Hname.
    rewrite <- generateLocator_recorded.
    by apply generateLocator_rules; [apply recorded_nonEmptyValues|]. }
  split_and!; [| | | |by intros; apply Hrecorded, getElementName_nonEmpty].
  - apply generateLocator_rules.
  - intros role name attributes tagName Hname.
    rewrite <- generateLocator_recorded.
    by apply generateLocator_rules; [apply recorded_nonEmptyValues|].
  - intros role name attributes tagName v Hv Hne. unfold generateLocator.
    rewrite Hv. by assert (truthy (Some v) = Some v) as -> by by apply truthy_Some.
  - intros handle names attributes Hread.
    by apply (readAttributes_nonEmptyValues _ _ _ _ nonEmptyValues_empty Hread).
Qed.

Lemma suggested_locator_priority_witness :
  readAttributes emailInput attrNames ∅ = Ok emailAttributes
  ∧ nonEmptyValues emailAttributes
  ∧ Some (generateLocator "textbox" "Email address" emailAttributes "INPUT")
    = firstApplicable
        (interactiveRules "textbox" "Email address" emailAttributes "input")
  ∧ generateLocator "textbox" "Email address" emailAttributes "INPUT"
    = "page.getByTestId('email')".
Proof.
  assert (readAttributes emailInput attrNames ∅ = Ok emailAttributes) as Hread
    by (vm_compute; reflexivity).
  pose proof (proj1 (proj2 (proj2 (proj2 suggested_locator_priority))) _ _ _ Hread)
    as Hne.
  split; [exact Hread|]. split; [exact Hne|]. split.
  - apply (proj1 suggested_locator_priority "textbox" "Email address" emailAttributes
             "INPUT" Hne). discriminate.
  - apply (proj1 (proj2 (proj2 suggested_locator_priority)) "textbox" "Email address"
             emailAttributes "INPUT" "email"); [reflexivity|discriminate].
Defined.

(** ** Extraction loops *)

Lemma forEachPush_omap handles body elements :
  forEachPush handles body elements = (elements ++ omap (pushedBy body) handles)%list.
Proof.
  unfold forEachPush. revert elements.
  induction handles as [|h handles IH]; intros elements; simpl.
  - by rewrite app_nil_r.
  - rewrite IH. unfold pushedBy at 2.
    destruct (body h) as [[e|]|]; simpl; [|done|done].
    by rewrite <- app_assoc.
Qed.

Lemma page_queryAll_elem page sel h :
  h ∈ page_queryAll page sel
  ↔ h ∈ subtree_elements (doc_root page) ∧ matches sel h = true.
Proof.
  unfold page_queryAll. rewrite !list_elem_of_In, filter_In. done.
Qed.

Lemma extractContentElements_elem page c :
  c ∈ extractContentElements page ↔
  ∃ h, h ∈ subtree_elements (doc_root page) ∧
       ( (matches headingSelector h = true ∧ headingBody h = Ok (Some c))
       ∨ (matches [SelTag "p"] h = true ∧ paragraphBody h = Ok (Some c))
       ∨ (matches [SelTag "ul"; SelTag "ol"] h = true ∧ listBody h = Ok (Some c))
       ∨ (matches [SelTag "table"] h = true ∧ tableBody h = Ok (Some c))
       ∨ (matches [SelTag "img"] h = true ∧ imageBody h = Ok (Some c)) ).
Proof.
  unfold extractContentElements. rewrite !forEachPush_omap, app_nil_l.
  rewrite !elem_of_app, !list_elem_of_omap.
  assert (∀ body h, pushedBy body h = Some c ↔ body h = Ok (Some c)) as Hp.
  { intros body h. unfold pushedBy. destruct (body h) as [[e|]|]; naive_solver. }
  setoid_rewrite Hp. setoid_rewrite page_queryAll_elem.
  split.
  - intros [[[[H|H]|H]|H]|H]; destruct H as (h & [? ?] & ?); exists h; tauto.
  - intros (h & ? & [H|[H|[H|[H|H]]]]);
      [do 4 left|do 3 left; right|do 2 left; right|left; right|right];
      exists h; tauto.
Qed.

(** What each content pass records, whatever the node. *)
Lemma contentBody_shape (h : Dom) (c : PageElement) :
  headingBody h = Ok (Some c) ∨ paragraphBody h = Ok (Some c)
  ∨ listBody h = Ok (Some c) ∨ tableBody h = Ok (Some c)
  ∨ imageBody h = Ok (Some c) →
  role c ∈ contentRoles
  ∧ attributes c !! "role" = None
  ∧ attributes c !! "id" = Some (default EmptyString (attr_of h "id"))
  ∧ attributes c !! "class" = Some (default EmptyString (attr_of h "class"))
  ∧ (role c = "image" →
     attributes c !! "src" = Some (default EmptyString (attr_of h "src"))
     ∧ attributes c !! "alt" = Some (default EmptyString (attr_of h "alt"))).
Proof.
  unfold contentRoles.
  destruct h as [d|t a [|] cs]; [naive_solver|naive_solver|].
  unfold headingBody, paragraphBody, listBody, tableBody, imageBody,
    evaluateTagLower, evaluateTagName, queryFirst, queryAll, textContent, getAttribute.
  cbn [live mbind result_bind attr_of fmap option_fmap option_map].
  intros [H|[H|[H|[H|H]]]].
  - destruct (truthy _) in H; [|done]. injection H as <-. cbn [role attributes].
    rewrite ?orElse_default. split_and!; intros; simplify_map_eq; try done; set_solver.
  - destruct (truthy _) in H; [|done]. destruct (Nat.ltb _ _) in H; [|done].
    injection H as <-. cbn [role attributes]. rewrite ?orElse_default.
    split_and!; intros; simplify_map_eq; try done; set_solver.
  - destruct (List.filter _ _) as [|item0 items] in H; [done|].
    destruct (live item0) in H; [|done]. cbn [mbind result_bind] in H.
    injection H as <-. cbn [role attributes]. rewrite ?orElse_default.
    split_and!; intros; simplify_map_eq; try done; set_solver.
  - destruct (head _) as [cap|] in H.
    + destruct (live cap) in H; [|done]. cbn [mbind result_bind] in H.
      injection H as <-. cbn [role attributes]. rewrite ?orElse_default.
      split_and!; intros; simplify_map_eq; try done; set_solver.
    + cbn [mbind result_bind] in H.
      injection H as <-. cbn [role attributes]. rewrite ?orElse_default.
      split_and!; intros; simplify_map_eq; try done; set_solver.
  - destruct (_ || _) in H; [|done].
    injection H as <-. cbn [role attributes]. rewrite ?orElse_default.
    split_and!; intros; simplify_map_eq; try done; set_solver.
Qed.

(** ** Recorded attributes *)

(** C10. The attribute loop of the interactive extraction records an
    attribute exactly when it is on the allow-list and its DOM value is
    a non-empty string, so a missing attribute and an empty one leave the
    same map; the classifier and the synthesizer read an empty entry as a
    missing one. A content element always records [id] and [class] of
    the node it was built from ([src] and [alt] too for an image), the
    empty string standing for a missing attribute, and never a role. *)
Theorem attributes_population :
  (∀ handle (attrs : gmap string string),
     readAttributes handle attrNames ∅ = Ok attrs →
     ∀ k v, attrs !! k = Some v
            ↔ k ∈ attrNames ∧ attr_of handle k = Some v ∧ v ≠ EmptyString)
  ∧ (∀ t a a' cs cs',
       (∀ k, k ∈ attrNames → truthy (assoc k a) = truthy (assoc k a')) →
       readAttributes (Element t a false cs) attrNames ∅
       = readAttributes (Element t a' false cs') attrNames ∅)
  ∧ (∀ handle tagName role name (attributes : gmap string string),
       inferRole handle tagName attributes
       = inferRole handle tagName (recorded attributes)
       ∧ generateLocator role name attributes tagName
         = generateLocator role name (recorded attributes) tagName)
  ∧ (∀ page c, c ∈ extractContentElements page →
       ∃ h, h ∈ subtree_elements (doc_root page)
            ∧ (headingBody h = Ok (Some c) ∨ paragraphBody h = Ok (Some c)
               ∨ listBody h = Ok (Some c) ∨ tableBody h = Ok (Some c)
               ∨ imageBody h = Ok (Some c))
            ∧ attributes c !! "role" = None
            ∧ attributes c !! "id" = Some (default EmptyString (attr_of h "id"))
            ∧ attributes c !! "class" = Some (default EmptyString (attr_of h "class"))
            ∧ (role c = "image" →
               attributes c !! "src" = Some (default EmptyString (attr_of h "src"))
               ∧ attributes c !! "alt" = Some (default EmptyString (attr_of h "alt")))).
Proof.
  split_and!.
  - intros handle attrs Hread k v.
    rewrite (readAttributes_attrNames _ _ Hread). case_bool_decide.
    + rewrite truthy_Some. tauto.
    + split; [done|tauto].
  - intros t a a' cs cs' Hsame.
    destruct (readAttributes_live t a cs attrNames ∅) as (m & -> & Hlook).
    destruct (readAttributes_live t a' cs' attrNames ∅) as (m' & -> & Hlook').
    f_equal. apply map_eq. intros k. rewrite Hlook, Hlook'.
    case_bool_decide; [|done]. by rewrite Hsame.
  - intros handle tagName role name attributes. split.
    + unfold inferRole. rewrite !recorded_lookup, truthy_truthy.
      destruct (truthy (attributes !! "role")); [done|].
      destruct (attributes !! "type") as [[|c r]|]; cbn [truthy]; done.
    + by rewrite generateLocator_recorded.
  - intros page c (h & Hh & Hbody)%extractContentElements_elem.
    exists h. split; [done|].
    assert (headingBody h = Ok (Some c) ∨ paragraphBody h = Ok (Some c)
            ∨ listBody h = Ok (Some c) ∨ tableBody h = Ok (Some c)
            ∨ imageBody h = Ok (Some c)) as Hshape by tauto.
    split; [exact Hshape|].
    apply contentBody_shape in Hshape. tauto.
Qed.

Lemma attributes_population_witness :
  readAttributes emptyAttrInput attrNames ∅ = Ok {[ "name" := "q" ]}
  ∧ (∀ k v, ({[ "name" := "q" ]} : gmap string string) !! k = Some v
            ↔ k ∈ attrNames ∧ attr_of emptyAttrInput k = Some v ∧ v ≠ EmptyString)
  ∧ readAttributes emptyAttrInput attrNames ∅
    = readAttributes (elem "INPUT" [("name", "q")] []) attrNames ∅
  ∧ imageBody logoImage = Ok (Some logoElement)
  ∧ logoElement ∈ extractContentElements (pageOf [logoImage])
  ∧ ∃ h, h ∈ subtree_elements (doc_root (pageOf [logoImage]))
         ∧ attributes logoElement !! "id" = Some (default EmptyString (attr_of h "id"))
         ∧ attributes logoElement !! "class"
           = Some (default EmptyString (attr_of h "class"))
         ∧ attributes logoElement !! "src" = Some (default EmptyString (attr_of h "src"))
         ∧ attributes logoElement !! "alt" = Some (default EmptyString (attr_of h "alt")).
Proof.
  assert (readAttributes emptyAttrInput attrNames ∅ = Ok {[ "name" := "q" ]}) as Hread
    by (vm_compute; reflexivity).
  assert (logoElement ∈ extractContentElements (pageOf [logoImage])) as Hin.
  { apply list_elem_of_lookup. exists 0%nat. vm_compute. reflexivity. }
  split; [exact Hread|]. split; [|split; [|split; [|split; [exact Hin|]]]].
  - exact (proj1 attributes_population emptyAttrInput _ Hread).
  - apply (proj1 (proj2 attributes_population)).
    intros k Hk. unfold attrNames in Hk.
    repeat (apply elem_of_cons in Hk as [->|Hk]; [reflexivity|]).
    by apply elem_of_nil in Hk.
  - vm_compute. reflexivity.
  - destruct (proj2 (proj2 (proj2 attributes_population)) _ _ Hin)
      as (h & Hh & _ & _ & Hid & Hclass & Himg).
    destruct (Himg eq_refl) as [Hsrc Halt].
    exists h. split_and!; assumption.
Defined.

(** ** Deduplication *)

Lemma findIndex_range {A} (p : A → bool) (l : list A) :
  findIndex p l = (-1)%Z ∨ (0 ≤ findIndex p l < Z.of_nat (length l))%Z.
Proof.
  induction l as [|x l IH]; simpl; [by left|].
  destruct (p x); [right; lia|].
  destruct IH as [->|IH]; [by left|].
  right. destruct (findIndex p l); lia.
Qed.

Lemma findIndex_app_none {A} (p : A → bool) (pre l : list A) (e : A) :
  (∀ x, x ∈ pre → p x = false) → p e = true →
  findIndex p (pre ++ e :: l) = Z.of_nat (length pre).
Proof.
  intros Hpre He. induction pre as [|x pre IH]; simpl.
  - by rewrite He.
  - rewrite (Hpre x) by (apply elem_of_cons; by left).
    rewrite IH by (intros y Hy; apply Hpre, elem_of_cons; by right).
    destruct (Z.of_nat (length pre)) eqn:E; lia.
Qed.

Lemma findIndex_app_some {A} (p : A → bool) (pre l : list A) (x : A) :
  x ∈ pre → p x = true →
  (0 ≤ findIndex p (pre ++ l) < Z.of_nat (length pre))%Z.
Proof.
  intros Hx Hp. induction pre as [|y pre IH]; [by apply elem_of_nil in Hx|].
  simpl. destruct (p y) eqn:Hy; [lia|].
  apply elem_of_cons in Hx as [->|Hx]; [congruence|].
  specialize (IH Hx). destruct (findIndex p (pre ++ l)); lia.
Qed.

Lemma keepFirst_ext (seen seen' : list string) (l : list PageElement) :
  (∀ x, x ∈ seen ↔ x ∈ seen') → keepFirst seen l = keepFirst seen' l.
Proof.
  revert seen seen'. induction l as [|e l IH]; intros seen seen' Hs; [done|].
  simpl. rewrite (bool_decide_ext _ _ (Hs (suggested_locator e))).
  case_bool_decide; [by apply IH|].
  f_equal. apply IH. intros x. rewrite !elem_of_cons, Hs. done.
Qed.

Lemma filterFrom_keepFirst (pre l : list PageElement) :
  filterFrom (fun element index self =>
      Z.eqb index
        (findIndex (fun e => String.eqb (suggested_locator e)
                                        (suggested_locator element)) self))
    (pre ++ l) l (Z.of_nat (length pre))
  = keepFirst (suggested_locator <$> pre) l.
Proof.
  revert pre. induction l as [|e l IH]; intros pre; [done|].
  cbn [filterFrom keepFirst].
  replace (Z.of_nat (length pre) + 1)%Z
    with (Z.of_nat (length (pre ++ [e]))) by (rewrite length_app; simpl; lia).
  replace (pre ++ e :: l)%list with ((pre ++ [e]) ++ l)%list by by rewrite <- app_assoc.
  rewrite IH. rewrite <- app_assoc. cbn [app].
  set (p := fun e0 => String.eqb (suggested_locator e0) (suggested_locator e)).
  case_bool_decide as Hseen.
  - apply list_elem_of_fmap in Hseen as (x & Hx & Hin).
    pose proof (findIndex_app_some p pre (e :: l) x Hin) as Hr.
    rewrite (proj2 (Z.eqb_neq _ _)).
    2:{ unfold p in Hr at 1. rewrite Hx, String.eqb_refl in Hr. lia. }
    apply keepFirst_ext. intros y. rewrite fmap_app, elem_of_app. simpl.
    rewrite elem_of_cons, elem_of_nil. split; [|tauto].
    intros [?|[->|[]]]; [done|]. rewrite Hx. apply list_elem_of_fmap. eauto.
  - rewrite findIndex_app_none, Z.eqb_refl.
    + f_equal. apply keepFirst_ext. intros y.
      rewrite fmap_app, elem_of_app, elem_of_cons. simpl.
      rewrite elem_of_cons, elem_of_nil. tauto.
    + intros x Hx. unfold p. apply String.eqb_neq. intros Heq.
      apply Hseen. rewrite <- Heq. apply list_elem_of_fmap. eauto.
    + unfold p. apply String.eqb_refl.
Qed.

Lemma uniqueElements_keepFirst (elements : list PageElement) :
  uniqueElements elements = keepFirst [] elements.
Proof.
  unfold uniqueElements, filterIndexed.
  apply (filterFrom_keepFirst [] elements).
Qed.

Lemma keepFirst_sublist (seen : list string) (l : list PageElement) :
  sublist (keepFirst seen l) l.
Proof.
  revert seen. induction l as [|e l IH]; intros seen; simpl; [done|].
  case_bool_decide; [by apply sublist_cons|by apply sublist_skip].
Qed.

Lemma keepFirst_filter (seen : list string) (l : list PageElement) (locator : string) :
  List.filter (hasLocator locator) (keepFirst seen l)
  = if bool_decide (locator ∈ seen) then []
    else option_list (List.find (hasLocator locator) l).
Proof.
  revert seen. induction l as [|e l IH]; intros seen.
  - simpl. by case_bool_decide.
  - cbn [keepFirst List.find].
    assert (hasLocator locator e = bool_decide (suggested_locator e = locator)) as He
      by apply eqb_decide.
    destruct (decide (suggested_locator e ∈ seen)) as [Hin|Hnin].
    + rewrite (bool_decide_eq_true_2 _ Hin), IH.
      destruct (decide (locator ∈ seen)) as [Hl|Hl].
      * by rewrite !(bool_decide_eq_true_2 _ Hl).
      * rewrite !(bool_decide_eq_false_2 _ Hl).
        rewrite He, bool_decide_eq_false_2; [done|]. by intros <-.
    + rewrite (bool_decide_eq_false_2 _ Hnin). cbn [List.filter].
      rewrite IH, He.
      destruct (decide (suggested_locator e = locator)) as [Heq|Hne].
      * rewrite (bool_decide_eq_true_2 _ Heq).
        rewrite (bool_decide_eq_true_2 (locator ∈ _ :: seen))
          by (apply elem_of_cons; by left).
        rewrite bool_decide_eq_false_2; [done|]. by rewrite <- Heq.
      * rewrite (bool_decide_eq_false_2 _ Hne).
        rewrite (bool_decide_ext (locator ∈ _ :: seen) (locator ∈ seen)); [done|].
        rewrite elem_of_cons. naive_solver.
Qed.

Lemma omap_pushedBy_Ok (f : Dom → option PageElement) (l : list Dom) :
  omap (pushedBy (fun handle => Ok (f handle))) l = omap f l.
Proof.
  induction l as [|h l IH]; [done|]. cbn [omap list_omap]. rewrite IH.
  unfold pushedBy. by destruct (f h).
Qed.

Lemma candidates_flat (page : Document) :
  candidates page
  = flat_map (fun selector => omap extractElementInfo (page_queryAll page selector))
      locators.
Proof.
  unfold candidates.
  assert (∀ sels acc,
    fold_left (fun elements selector =>
                 forEachPush (page_queryAll page selector)
                   (fun handle => Ok (extractElementInfo handle)) elements)
              sels acc
    = (acc ++ flat_map (fun selector =>
                 omap extractElementInfo (page_queryAll page selector)) sels)%list) as H.
  { induction sels as [|sel sels IH]; intros acc; simpl.
    - by rewrite app_nil_r.
    - rewrite IH, forEachPush_omap, omap_pushedBy_Ok. by rewrite <- app_assoc. }
  apply (H locators []).
Qed.

(** No handle gives a candidate, so there is none. *)
Lemma candidates_nil (page : Document) : candidates page = [].
Proof.
  rewrite candidates_flat.
  induction locators as [|sel sels IH]; [done|].
  cbn [flat_map]. rewrite IH, app_nil_r.
  induction (page_queryAll page sel) as [|h hs IHh]; [done|].
  cbn [omap list_omap]. by rewrite extractElementInfo_null.
Qed.

Lemma extractElements_nil (page : Document) : extractElements page = [].
Proof. unfold extractElements. by rewrite candidates_nil. Qed.

(** What [analyzePage] returns when it returns. *)
Lemma analyzePage_Ok world url s a s' :
  analyzePage world url s = (Ok a, s') →
  ∃ doc structure,
    web world url = Some doc ∧ getPageStructure doc = Ok structure
    ∧ a = {| url := url;
             title := doc_title doc;
             high_level_actions := inferActions [] [] (extractContentElements doc);
             key_elements := [];
             page_structure := structure;
             form_fields := [];
             interactive_elements := [];
             navigation_elements := [];
             content_elements := extractContentElements doc |}.
Proof.
  unfold analyzePage, initialize, launched, getBrowser, launch, setBrowser,
    newPage, goto, tryFinally, closePage, liftResult, raise.
  unfold mbind, M_bind, mret, M_ret.
  intros H. repeat case_match; simplify_eq; rewrite ?extractElements_nil; eauto.
Qed.

(** C2. In the result of [analyzePage] no content element occurs in
    [key_elements] and none shares its locator with a key element: the
    interactive extraction obtains no element ([handle.tagName()] throws
    on every handle), so [key_elements] is empty whatever the page. *)
Theorem content_elements_disjoint_from_key_elements world url s a s' :
  analyzePage world url s = (Ok a, s') →
  key_elements a = []
  ∧ ∀ c, c ∈ content_elements a →
      (c ∉ key_elements a)
      ∧ (suggested_locator c ∉ (suggested_locator <$> key_elements a)).
Proof.
  intros (doc & structure & _ & _ & ->)%analyzePage_Ok.
  cbn [key_elements content_elements]. split; [done|].
  intros c _. split; apply not_elem_of_nil.
Qed.

Lemma content_elements_disjoint_from_key_elements_witness :
  match analyzePage (exampleWorld (pageOf [roleHeading])) exampleUrl initialState with
  | (Ok a, _) =>
      key_elements a = []
      ∧ (suggested_locator <$> content_elements a) = ["page.locator('#x')"]
      ∧ ∀ c, c ∈ content_elements a →
          (c ∉ key_elements a)
          ∧ (suggested_locator c ∉ (suggested_locator <$> key_elements a))
  | (Throw _, _) => False
  end.
Proof.
  destruct (analyzePage (exampleWorld (pageOf [roleHeading])) exampleUrl initialState)
    as [[a|e] s'] eqn:E; [|vm_compute in E; discriminate E].
  destruct (content_elements_disjoint_from_key_elements _ _ _ _ _ E) as [Hkey Hdis].
  split; [exact Hkey|]. split; [|exact Hdis].
  vm_compute in E. injection E as <- _. reflexivity.
Defined.

(** C3. The deduplicating filter keeps, of any list of candidates, a
    sublist in which for every locator the only survivor is the first
    candidate with that locator; [extractElements] applies it to the
    candidates, which are collected in catalogue order, then document
    order. *)
Theorem dedup_first_occurrence_wins (elements : list PageElement) :
  sublist (uniqueElements elements) elements
  ∧ (∀ locator,
       List.filter (hasLocator locator) (uniqueElements elements)
       = option_list (List.find (hasLocator locator) elements))
  ∧ (∀ c, c ∈ elements →
       ∃ first,
         List.find (hasLocator (suggested_locator c)) elements = Some first
         ∧ List.filter (hasLocator (suggested_locator c)) (uniqueElements elements)
           = [first])
  ∧ (∀ page,
       extractElements page = uniqueElements (candidates page)
       ∧ candidates page
         = flat_map (fun selector =>
                       omap extractElementInfo (page_queryAll page selector))
             locators).
Proof.
  assert (∀ locator,
       List.filter (hasLocator locator) (uniqueElements elements)
       = option_list (List.find (hasLocator locator) elements)) as Hfilter.
  { intros locator. rewrite uniqueElements_keepFirst, keepFirst_filter.
    rewrite bool_decide_eq_false_2; [done|]. apply not_elem_of_nil. }
  split_and!.
  - rewrite uniqueElements_keepFirst. apply keepFirst_sublist.
  - exact Hfilter.
  - intros c Hc. rewrite Hfilter.
    destruct (List.find _ _) as [first|] eqn:E; [by exists first|].
    apply list_elem_of_In in Hc.
    pose proof (find_none _ _ E c Hc) as Hnone.
    unfold hasLocator in Hnone. by rewrite String.eqb_refl in Hnone.
  - intros page. split; [done|apply candidates_flat].
Qed.

Lemma dedup_first_occurrence_wins_witness :
  secondOk ∈ [firstOk; secondOk]
  ∧ uniqueElements [firstOk; secondOk] = [firstOk]
  ∧ ∃ first,
      List.find (hasLocator (suggested_locator secondOk)) [firstOk; secondOk]
      = Some first
      ∧ List.filter (hasLocator (suggested_locator secondOk))
          (uniqueElements [firstOk; secondOk])
        = [first].
Proof.
  assert (secondOk ∈ [firstOk; secondOk]) as Hc.
  { apply list_elem_of_lookup. exists 1%nat. reflexivity. }
  split; [exact Hc|]. split; [vm_compute; reflexivity|].
  exact (proj1 (proj2 (proj2 (dedup_first_occurrence_wins [firstOk; secondOk])))
           secondOk Hc).
Defined.

(** ** Escaping *)

Lemma replaceAll_escapes (q : ascii) (text : string) (afterBackslash : bool) :
  q ≠ "\"%char →
  bareQuote q afterBackslash (replaceAll q (String "\" (String q EmptyString)) text)
  = false.
Proof.
  intros Hq. revert afterBackslash.
  induction text as [|c text IH]; intros afterBackslash; [done|].
  cbn [replaceAll]. destruct (Ascii.eqb_spec c q) as [->|Hc].
  - change (bareQuote q afterBackslash
              (String "\" (String q (replaceAll q (String "\" (String q EmptyString)) text)))
            = false).
    cbn [bareQuote].
    rewrite (proj2 (Ascii.eqb_neq "\" q)) by congruence.
    rewrite Ascii.eqb_refl. cbn [andb orb negb].
    rewrite (proj2 (Ascii.eqb_neq q "\")) by congruence.
    apply IH.
  - cbn [bareQuote]. rewrite (proj2 (Ascii.eqb_neq c q)) by done.
    cbn [andb orb]. apply IH.
Qed.

(** The content rule set escapes the text of a heading. *)
Lemma generateContentLocator_heading_escaped (text tagName : string)
    (className : option string) :
  text ≠ EmptyString →
  ∃ embedded,
    generateContentLocator "heading" text tagName None className
    = "page.getByRole('heading', { name: '" +:+ embedded +:+ "' })"
    ∧ bareQuote "'" false embedded = false.
Proof.
  intros Ht. exists (replaceAll "'" "\'" text). split.
  - unfold generateContentLocator. cbn [truthy].
    replace (String.eqb "heading" "heading") with true by reflexivity.
    by destruct text.
  - by apply replaceAll_escapes.
Qed.

(** C1. The content rule set escapes single quotes in the heading, text
    and image rules only: an id, a class token or a has-text filter is
    embedded in the single-quoted selector as it is. A heading whose id
    holds a single quote and a list whose first item does get locators
    with the quote left bare, whereas the heading rule escapes the same
    text. The interactive rule set escapes nothing. *)
Theorem content_locator_embeds_raw_quote :
  (suggested_locator <$> extractContentElements quotedPage)
  = [ "page.locator('#" +:+ "o'k" +:+ "')";
      "page.getByRole('heading', { name: '" +:+ "it\'s" +:+ "' })";
      "page.locator('" +:+ ("ul:has-text(" +:+ dquote +:+ "it's" +:+ dquote +:+ ")")
      +:+ "')" ]
  ∧ bareQuote "'" false "o'k" = true
  ∧ bareQuote "'" false ("ul:has-text(" +:+ dquote +:+ "it's" +:+ dquote +:+ ")") = true
  ∧ bareQuote "'" false "it\'s" = false
  ∧ (∀ role text tagName c i className,
       generateContentLocator role text tagName (Some (String c i)) className
       = "page.locator('#" +:+ String c i +:+ "')")
  ∧ generateLocator "button" "Don't click" ∅ "BUTTON"
    = "page.getByRole('button', { name: '" +:+ "Don't click" +:+ "' })"
  ∧ bareQuote "'" false "Don't click" = true.
Proof. split_and!; try (vm_compute; reflexivity); done. Qed.

(** ** Action Inferencer *)

Lemma filter_nonempty_existsb {A} (p : A → bool) (l : list A) :
  Nat.ltb 0 (length (List.filter p l)) = existsb p l.
Proof.
  induction l as [|x l IH]; [done|]. simpl. destruct (p x); [done|exact IH].
Qed.

Lemma existsb_filter {A} (p q : A → bool) (l : list A) :
  existsb p (List.filter q l) = existsb (fun x => q x && p x) l.
Proof.
  induction l as [|x l IH]; [done|]. simpl.
  destruct (q x); simpl; by rewrite IH.
Qed.

Lemma existsb_pointwise {A} (p q : A → bool) (l : list A) :
  (∀ x, p x = q x) → existsb p l = existsb q l.
Proof. intros H. induction l as [|x l IH]; [done|]. simpl. by rewrite H, IH. Qed.

Lemma pushIfAny_filter (p : PageElement → bool) (l : list PageElement)
    (label : string) (actions : list string) :
  pushIfAny (List.filter p l) label actions
  = (actions ++ triggered [(label, existsb p l)])%list.
Proof.
  unfold pushIfAny. rewrite filter_nonempty_existsb.
  destruct (existsb p l); simpl; [done|by rewrite app_nil_r].
Qed.

Lemma triggered_app (t1 t2 : list (string * bool)) :
  triggered (t1 ++ t2) = (triggered t1 ++ triggered t2)%list.
Proof.
  induction t1 as [|[label [|]] t1 IH]; simpl; [done| |done]. by rewrite IH.
Qed.

Lemma inferActions_triggered formFields interactiveElements contentElements :
  inferActions formFields interactiveElements contentElements
  = triggered (actionTriggers formFields interactiveElements contentElements).
Proof.
  unfold inferActions, actionTriggers.
  rewrite !pushIfAny_filter.
  assert (pushIfAny formFields "fill form fields" []
          = triggered [("fill form fields", bool_decide (formFields ≠ []))]) as ->.
  { unfold pushIfAny. by destruct formFields. }
  rewrite <- !triggered_app. cbn [app].
  do 4 f_equal. f_equal. f_equal.
  apply existsb_pointwise. intros el. unfold hasRole.
  by rewrite existsb_filter.
Qed.

Lemma triggered_elem (label : string) (triggers : list (string * bool)) :
  label ∈ triggered triggers ↔ (label, true) ∈ triggers.
Proof.
  induction triggers as [|[l [|]] triggers IH]; simpl.
  - by rewrite !elem_of_nil.
  - rewrite !elem_of_cons, IH. naive_solver.
  - rewrite elem_of_cons, IH. naive_solver.
Qed.

(** C7. The inferred actions are exactly the labels whose trigger holds,
    in the fixed order; a button whose locator equals that of a
    submit-named interactive element does not count for
    [interact with buttons]; two headings alone give exactly
    [verify page headings]. *)
Theorem inferActions_exact formFields interactiveElements contentElements :
  inferActions formFields interactiveElements contentElements
  = triggered (actionTriggers formFields interactiveElements contentElements)
  ∧ ("interact with buttons"
       ∈ inferActions formFields interactiveElements contentElements
     ↔ ∃ el, el ∈ interactiveElements ∧ role el = "button"
             ∧ ∀ sb, sb ∈ interactiveElements → isSubmitName sb = true →
                     suggested_locator sb ≠ suggested_locator el)
  ∧ (∀ h1 h2, role h1 = "heading" → role h2 = "heading" →
       inferActions [] [] [h1; h2] = ["verify page headings"]).
Proof.
  split_and!.
  - apply inferActions_triggered.
  - rewrite inferActions_triggered, triggered_elem. unfold actionTriggers.
    rewrite !elem_of_cons, elem_of_nil.
    split.
    + intros H. repeat (destruct H as [H|H]; [try discriminate H|]); [|done].
      injection H as H. symmetry in H.
      apply existsb_exists in H as (el & Hin & [Hrole Hnone]%andb_prop).
      exists el. split_and!.
      * by apply list_elem_of_In.
      * by apply String.eqb_eq.
      * intros sb Hsb Hsubmit Heq.
        apply negb_true_iff in Hnone.
        assert (existsb (fun sb0 => isSubmitName sb0
                          && String.eqb (suggested_locator sb0) (suggested_locator el))
                  interactiveElements = true) as Hex; [|congruence].
        apply existsb_exists. exists sb. split; [by apply list_elem_of_In|].
        rewrite Hsubmit, Heq. apply String.eqb_refl.
    + intros (el & Hin & Hrole & Hnone). do 3 right. left. f_equal. symmetry.
      apply existsb_exists. exists el. split; [by apply list_elem_of_In|].
      apply andb_true_intro. split; [by apply String.eqb_eq|].
      apply negb_true_iff. apply not_true_is_false.
      intros (sb & Hsb & [Hsubmit Heq%String.eqb_eq]%andb_prop)%existsb_exists.
      apply (Hnone sb); [by apply list_elem_of_In|done..].
  - intros h1 h2 H1 H2. rewrite inferActions_triggered.
    unfold actionTriggers, hasRole. cbn [existsb]. rewrite H1, H2. reflexivity.
Qed.

Lemma inferActions_exact_witness :
  role welcomeHeading = "heading"
  ∧ inferActions [] [] [welcomeHeading; welcomeHeading] = ["verify page headings"].
Proof.
  split; [reflexivity|].
  exact (proj2 (proj2 (inferActions_exact [] [] []))
           welcomeHeading welcomeHeading eq_refl eq_refl).
Defined.

Example two_headings_page :
  ∃ a s',
    analyzePage
      (exampleWorld (pageOf [elem "H1" [] [TextNode "Welcome"];
                             elem "H2" [] [TextNode "News"]]))
      exampleUrl initialState = (Ok a, s')
    ∧ form_fields a = [] ∧ interactive_elements a = []
    ∧ high_level_actions a = ["verify page headings"].
Proof. eexists _, _. split; [vm_compute; reflexivity|]. done. Qed.
(** ** Session release *)

Lemma initialState_wf : wfState initialState.
Proof. split; [done|]. intros h Hh. cbn in Hh. set_solver. Qed.

Lemma stateless_bind {A B} (m : M A) (k : A → M B) :
  stateless m → (∀ a, stateless (k a)) → stateless (m ≫= k).
Proof.
  intros Hm Hk s. unfold mbind, M_bind. specialize (Hm s).
  destruct (m s) as [[a|e] s1]; simpl in *; subst; [apply Hk|done].
Qed.

Lemma stateless_goto world page url : stateless (goto world page url).
Proof. intros s. unfold goto. repeat case_match; done. Qed.

Lemma stateless_liftResult {A} (r : result A) : stateless (liftResult r).
Proof. done. Qed.

Lemma stateless_mret {A} (a : A) : stateless (mret a : M A).
Proof. done. Qed.

Lemma tryFinally_closePage {A} (body : M A) (page : nat) (s : State) :
  stateless body →
  tryFinally body (closePage page) s = ((body s).1, withoutPage page s).
Proof.
  intros Hb. unfold tryFinally, closePage. specialize (Hb s).
  destruct (body s) as [r s1]; simpl in *. by subst.
Qed.

Lemma initialize_cases world s :
  initialize world s
  = match browser s with
    | Some _ => (Ok tt, s)
    | None =>
        if launch_ok world then
          (Ok tt, {| browser := Some (next_handle s);
                     open_browsers := {[next_handle s]} ∪ open_browsers s;
                     open_pages := open_pages s;
                     next_handle := S (next_handle s) |})
        else (Throw LaunchError, s)
    end.
Proof.
  unfold initialize, launched, getBrowser, launch, setBrowser, mbind, M_bind, mret, M_ret.
  destruct (browser s); [done|]. by destruct (launch_ok world).
Qed.

Lemma initialize_wf world s r s1 :
  wfState s → initialize world s = (r, s1) →
  wfState s1 ∧ open_pages s1 = open_pages s
  ∧ open_browsers s ⊆ open_browsers s1
  ∧ (next_handle s ≤ next_handle s1)%nat
  ∧ (∀ b, browser s = Some b → browser s1 = Some b)
  ∧ match r with
    | Ok _ => is_Some (browser s1)
    | Throw _ => s1 = s ∧ browser s = None ∧ launch_ok world = false
    end.
Proof.
  intros Hwf. rewrite initialize_cases.
  destruct (browser s) as [b|] eqn:Eb.
  - intros [= <- <-]. rewrite Eb. split_and!; try done.
  - destruct (launch_ok world) eqn:El; intros [= <- <-]; cbn.
    + split_and!; try done; [|set_solver|lia].
      destruct Hwf as [Hb Hp].
      split; cbn; [intros b [= <-]; set_solver|]. intros h Hh%Hp. lia.
    + split_and!; try done.
Qed.

(** C8. Whatever [analyzePage] does, return or throw, every page session
    it opened is closed again when it finishes, no browser is closed,
    and the analyzer's browser handle, once set, stays set and open;
    [close] alone closes the browser and clears the handle. *)
Theorem analyzePage_releases_session world url s r s' :
  wfState s →
  analyzePage world url s = (r, s') →
  open_pages s' = open_pages s
  ∧ (∀ h, (next_handle s ≤ h)%nat → h ∉ open_pages s')
  ∧ open_browsers s ⊆ open_browsers s'
  ∧ (∀ b, browser s = Some b → browser s' = Some b)
  ∧ (is_Some (browser s) ∨ launch_ok world = true →
     ∃ b, browser s' = Some b ∧ b ∈ open_browsers s')
  ∧ wfState s'
  ∧ (∀ b, browser s' = Some b →
       ∃ s'', close s' = (Ok tt, s'') ∧ browser s'' = None
              ∧ open_browsers s'' = open_browsers s' ∖ {[b]}).
Proof.
  intros Hwf.
  assert (∀ s0 b, browser s0 = Some b →
       ∃ s'', close s0 = (Ok tt, s'') ∧ browser s'' = None
              ∧ open_browsers s'' = open_browsers s0 ∖ {[b]}) as Hclose.
  { intros s0 b E. unfold close, getBrowser, closeBrowser, setBrowser,
      mbind, M_bind, mret, M_ret. rewrite E. cbn. eauto. }
  assert (∀ h, (next_handle s ≤ h)%nat → h ∉ open_pages s) as Hold.
  { intros h Hle Hin. apply Hwf in Hin. lia. }
  unfold analyzePage. unfold mbind at 1, M_bind at 1.
  destruct (initialize world s) as [[[]|e] s1] eqn:Hinit;
    destruct (initialize_wf _ _ _ _ Hwf Hinit)
      as (Hwf1 & Hpages & Hbrowsers & Hnext & Hkeep & Hres).
  - destruct Hres as [b Eb].
    unfold mbind at 1, M_bind at 1, getBrowser. rewrite Eb.
    unfold mbind at 1, M_bind at 1, newPage.
    assert (b ∈ open_browsers s1) as Hopen by by apply Hwf1.
    rewrite (bool_decide_eq_true_2 _ Hopen). cbn [andb].
    destruct (newPage_ok world).
    + rewrite tryFinally_closePage.
      2:{ apply stateless_bind; [apply stateless_goto|]. intros doc.
          apply stateless_bind; [apply stateless_liftResult|]. intros st.
          apply stateless_mret. }
      intros [= _ <-]. unfold withoutPage. cbn.
      assert (next_handle s1 ∉ open_pages s1) as Hfresh.
      { intros Hin. apply Hwf1 in Hin. lia. }
      assert (({[next_handle s1]} ∪ open_pages s1) ∖ {[next_handle s1]} = open_pages s)
        as -> by set_solver.
      split_and!; try done.
      * intros _. exists b. by rewrite Eb.
      * split; cbn; [by rewrite Eb; intros ? [= <-]|].
        intros h Hin. rewrite <- Hpages in Hin. apply Hwf1 in Hin. lia.
      * intros b' Eb'.
        match goal with
        | |- ∃ s'', close ?st = _ ∧ _ =>
            destruct (Hclose st b' Eb') as (s'' & ? & ? & ?); by exists s''
        end.
    + intros [= <- <-]. split_and!; try done.
      * by rewrite Hpages.
      * intros _. by exists b.
      * intros b' Eb'. by apply Hclose.
  - destruct Hres as (-> & Eb & El). intros [= <- <-].
    split_and!; try done.
    + intros [[b Hb]|Hl]; congruence.
    + intros b' Eb'. by apply Hclose.
Qed.

Lemma analyzePage_releases_session_witness :
  wfState initialState
  ∧ ∃ r s',
      analyzePage (exampleWorld (pageOf [roleHeading])) "https://unreachable.test/"
        initialState = (r, s')
      ∧ r = Throw NavigationError
      ∧ open_pages s' = open_pages initialState
      ∧ ∃ b, browser s' = Some b ∧ b ∈ open_browsers s'.
Proof.
  split; [apply initialState_wf|].
  eexists _, _. split; [vm_compute; reflexivity|]. split; [reflexivity|].
  pose proof (analyzePage_releases_session
                (exampleWorld (pageOf [roleHeading])) "https://unreachable.test/"
                initialState _ _ initialState_wf ltac:(vm_compute; reflexivity))
    as (Hpages & _ & _ & _ & Hbrowser & _).
  split; [exact Hpages|]. apply Hbrowser. by right.
Defined.

Example analyzePage_twice :
  ∃ a1 a2 s1 s2,
    analyzePage (exampleWorld (pageOf [roleHeading])) exampleUrl initialState = (Ok a1, s1)
    ∧ analyzePage (exampleWorld (pageOf [roleHeading])) exampleUrl s1 = (Ok a2, s2)
    ∧ browser s1 = Some 0 ∧ browser s2 = Some 0
    ∧ open_pages s2 = ∅ ∧ open_browsers s2 = {[0]}.
Proof.
  eexists _, _, _, _. split; [vm_compute; reflexivity|].
  split; [vm_compute; reflexivity|]. split_and!; vm_compute; reflexivity.
Qed.
(** ** Lists pass *)

Lemma listBody_live t a cs :
  listBody (Element t a false cs)
  = let items := liDescendants (Element t a false cs) in
    match items with
    | [] => Ok None
    | item0 :: _ =>
        raw ← textContent item0;
        let firstItemText := orElse (trim <$> raw) EmptyString in
        let listType :=
          if String.eqb (toLowerCase t) "ul" then "unordered" else "ordered" in
        Ok (Some {| role := "list";
                    name_or_label :=
                      listType +:+ " list with "
                      +:+ ofNumber (length items) +:+ " items";
                    suggested_locator :=
                      generateContentLocator "list" firstItemText (toLowerCase t)
                        (assoc "id" a) (assoc "class" a);
                    tag_name := toLowerCase t;
                    text_content :=
                      Some ("List with " +:+ ofNumber (length items)
                            +:+ " items. First item: " +:+ firstItemText);
                    attributes :=
                      <["id" := orElse (assoc "id" a) EmptyString]>
                      (<["class" := orElse (assoc "class" a) EmptyString]>
                       (<["type" := listType]> ∅)) |})
    end.
Proof. reflexivity. Qed.

Lemma generateContentLocator_list (text tagName : string) :
  generateContentLocator "list" text tagName None None
  = if nonEmpty text && Nat.ltb (String.length text) 50
    then "page.locator('" +:+ tagName +:+ ":has-text(" +:+ dquote
         +:+ replaceAll (ascii_of_nat 34) ("\" +:+ dquote) text +:+ dquote +:+ ")')"
    else "page.locator('" +:+ tagName +:+ "')".
Proof.
  unfold generateContentLocator. cbn [truthy].
  replace (String.eqb "list" "heading") with false by reflexivity.
  replace (String.eqb "list" "paragraph") with false by reflexivity.
  replace (String.eqb "list" "text") with false by reflexivity.
  replace (String.eqb "list" "image") with false by reflexivity.
  cbn [andb orb]. rewrite andb_false_r. done.
Qed.

(** C9. The Lists pass emits an element for a [ul] or [ol] exactly when
    it has an [li] descendant; the name counts the [li] descendants; a
    list without id and class gets the has-text locator of its first
    item's trimmed text when that text is non-empty and shorter than 50
    characters, and the bare tag otherwise. *)
Theorem lists_pass_summary t a cs :
  let node := Element t a false cs in
  let items := liDescendants node in
  let listType := if String.eqb (toLowerCase t) "ul" then "unordered" else "ordered" in
  (∀ item0, head items = Some item0 → live item0 = Ok item0) →
  (is_Some (pushedBy listBody node) ↔ (0 < length items)%nat)
  ∧ (∀ e, listBody node = Ok (Some e) →
       ∃ item0, head items = Some item0
         ∧ name_or_label e
           = listType +:+ " list with " +:+ ofNumber (length items) +:+ " items"
         ∧ suggested_locator e
           = generateContentLocator "list" (trim (text_of item0)) (toLowerCase t)
               (assoc "id" a) (assoc "class" a)
         ∧ (assoc "id" a = None → assoc "class" a = None →
            suggested_locator e
            = if nonEmpty (trim (text_of item0))
                 && Nat.ltb (String.length (trim (text_of item0))) 50
              then "page.locator('" +:+ toLowerCase t +:+ ":has-text(" +:+ dquote
                   +:+ replaceAll (ascii_of_nat 34) ("\" +:+ dquote) (trim (text_of item0))
                   +:+ dquote +:+ ")')"
              else "page.locator('" +:+ toLowerCase t +:+ "')")
         ∧ (toLowerCase t = "ul" → length items = 3%nat →
            name_or_label e = "unordered list with 3 items")
         ∧ (∀ page, node ∈ subtree_elements (doc_root page) →
              matches [SelTag "ul"; SelTag "ol"] node = true →
              e ∈ extractContentElements page)).
Proof.
  intros node items listType Hlive. subst node items listType.
  unfold pushedBy. rewrite listBody_live. cbn zeta.
  destruct (liDescendants (Element t a false cs)) as [|item0 rest] eqn:Eitems.
  - split; [|done]. split; [by intros [? ?]|]. cbn. lia.
  - specialize (Hlive item0 eq_refl). unfold textContent. rewrite Hlive.
    cbn [mbind result_bind fmap option_fmap option_map].
    rewrite orElse_default. cbn [default].
    split; [split; [cbn; lia|by eexists]|].
    intros e [= <-]. exists item0. cbn [name_or_label suggested_locator head].
    split_and!; try done.
    + intros -> ->. apply generateContentLocator_list.
    + intros -> Hlen. cbn [length] in Hlen. by rewrite Hlen.
    + intros page Hin Hmatch. apply extractContentElements_elem.
      exists (Element t a false cs). split; [done|].
      right. right. left. split; [done|].
      rewrite listBody_live. cbn zeta. rewrite Eitems.
      unfold textContent. rewrite Hlive.
      cbn [mbind result_bind fmap option_fmap option_map].
      by rewrite orElse_default.
Qed.

Lemma lists_pass_summary_witness :
  (∀ item0, head (liDescendants flatList) = Some item0 → live item0 = Ok item0)
  ∧ ∃ e, listBody flatList = Ok (Some e)
         ∧ name_or_label e = "unordered list with 3 items"
         ∧ suggested_locator e
           = "page.locator('ul:has-text(" +:+ dquote +:+ "Fruit" +:+ dquote +:+ ")')".
Proof.
  assert (∀ item0, head (liDescendants flatList) = Some item0 → live item0 = Ok item0)
    as Hlive by (intros item0 [= <-]; reflexivity).
  split; [exact Hlive|].
  eexists. split; [vm_compute; reflexivity|].
  destruct (proj2 (lists_pass_summary "UL" [] _ Hlive) _ ltac:(vm_compute; reflexivity))
    as (item0 & Hhead & _ & _ & Hloc & Hname & _).
  split.
  - apply Hname; reflexivity.
  - injection Hhead as <-. rewrite (Hloc eq_refl eq_refl). vm_compute. reflexivity.
Defined.

(** A list with three [li] children, one of which holds a nested list,
    is summarised with four items. *)
Lemma nested_list_counts_descendants :
  length (liChildren nestedList) = 3%nat
  ∧ attr_of nestedList "id" = None ∧ attr_of nestedList "class" = None
  ∧ (name_or_label <$> pushedBy listBody nestedList)
    = Some "unordered list with 4 items"
  ∧ (name_or_label <$> pushedBy listBody nestedList)
    ≠ Some "unordered list with 3 items".
Proof. split_and!; try (vm_compute; reflexivity). vm_compute. discriminate. Qed.

(** ** Sanity checks of the string primitives *)

Example toLowerCase_ex : toLowerCase "BuTTon-1" = "button-1".
Proof. reflexivity. Qed.

Example trim_ex : trim "  a b  " = "a b".
Proof. reflexivity. Qed.

Example split_ex : split " " "btn  primary" = ["btn"; EmptyString; "primary"].
Proof. reflexivity. Qed.

Example ofNumber_ex : ofNumber 12 = "12" ∧ ofNumber 0 = "0".
Proof. split; reflexivity. Qed.

Example includes_ex : includes "please sign in now" "sign in" = true.
Proof. reflexivity. Qed.

Example heading_id_precedence :
  generateContentLocator "heading" "Welcome" "h1" (Some "welcome") None
  = "page.locator('#welcome')".
Proof. reflexivity. Qed.
(** * Further properties of the analyzer *)

(** ** Strings *)

Lemma append_cons (c : ascii) (a b : string) :
  String c a +:+ b = String c (a +:+ b).
Proof. reflexivity. Qed.

Lemma append_nil (b : string) : EmptyString +:+ b = b.
Proof. reflexivity. Qed.

Lemma length_append (a b : string) :
  String.length (a +:+ b) = (String.length a + String.length b)%nat.
Proof.
  induction a as [|c a IH]; [done|]. rewrite append_cons. cbn. by rewrite IH.
Qed.

Lemma substring0_length (n : nat) (s : string) :
  String.length (substring0 n s) = Nat.min n (String.length s).
Proof.
  unfold substring0. revert s. induction n as [|n IH]; intros [|c s]; cbn; try done.
  by rewrite IH.
Qed.

Lemma substring0_short (n : nat) (s : string) :
  (String.length s ≤ n)%nat → substring0 n s = s.
Proof.
  unfold substring0. revert s. induction n as [|n IH]; intros [|c s]; cbn; try done.
  - lia.
  - intros H. f_equal. apply IH. lia.
Qed.

Lemma substring0_prefix (n : nat) (s : string) :
  ∃ rest, s = substring0 n s +:+ rest.
Proof.
  unfold substring0. revert s. induction n as [|n IH]; intros [|c s]; cbn.
  - by exists EmptyString.
  - by exists (String c s).
  - by exists EmptyString.
  - destruct (IH s) as [rest Hr]. exists rest. rewrite append_cons. by rewrite <- Hr.
Qed.

Lemma split_nonempty (sep : ascii) (s : string) : split sep s ≠ [].
Proof.
  destruct s as [|c s]; [done|]. cbn.
  destruct (Ascii.eqb c sep); [done|]. by destruct (split sep s).
Qed.

Lemma concat_split (sep : ascii) (s : string) :
  String.concat (String sep EmptyString) (split sep s) = s.
Proof.
  induction s as [|c s IH]; [done|]. cbn [split].
  destruct (Ascii.eqb_spec c sep) as [->|Hne].
  - pose proof (split_nonempty sep s) as Hn.
    destruct (split sep s) as [|x xs]; [done|].
    change (String sep (String.concat (String sep EmptyString) (x :: xs)) = String sep s).
    by rewrite IH.
  - pose proof (split_nonempty sep s) as Hn.
    destruct (split sep s) as [|x xs]; [done|].
    destruct xs as [|y ys]; cbn in *; by rewrite <- IH.
Qed.

Lemma split_pieces (sep : ascii) (s : string) (piece : string) :
  piece ∈ split sep s → occurs sep piece = false.
Proof.
  revert piece. induction s as [|c s IH]; intros piece; cbn [split].
  - intros ->%list_elem_of_singleton. done.
  - destruct (Ascii.eqb_spec c sep) as [->|Hne].
    + intros [->|H]%elem_of_cons; [done|by apply IH].
    + pose proof (split_nonempty sep s) as Hn.
      destruct (split sep s) as [|x xs]; [done|].
      intros [->|H]%elem_of_cons.
      * cbn. rewrite (proj2 (Ascii.eqb_neq c sep)) by done. cbn.
        apply IH. by left.
      * apply IH. by right.
Qed.

(** ** Content locators *)

Lemma paragraph_shortText (text : string) :
  (if Nat.ltb 20 (String.length text) then substring0 20 text else text)
  = paragraphSeed text.
Proof.
  unfold paragraphSeed. destruct (Nat.ltb_spec 20 (String.length text)); [done|].
  symmetry. by apply substring0_short.
Qed.

(** X1. Whatever the role, text, tag, id and class, the content rule set
    returns one of seven shapes. The heading, text and alt-text shapes
    embed the text with every single quote escaped, a paragraph at most
    20 characters of it; the has-text shape embeds the text with every
    double quote escaped and nothing else changed; the id and class
    shapes embed the id and the first class token as they are. *)
Theorem generateContentLocator_shapes (role text tagName : string)
    (id className : option string) :
  let locator := generateContentLocator role text tagName id className in
  (∃ i, truthy id = Some i ∧ locator = "page.locator('#" +:+ i +:+ "')")
  ∨ (truthy id = None
     ∧ ( (∃ embedded, bareQuote "'" false embedded = false
            ∧ ( (role = "heading" ∧ embedded = replaceAll "'" "\'" text
                 ∧ locator = "page.getByRole('heading', { name: '" +:+ embedded +:+ "' })")
              ∨ (embedded = replaceAll "'" "\'" (paragraphSeed text)
                 ∧ (String.length (paragraphSeed text) ≤ 20)%nat
                 ∧ locator = "page.getByText('" +:+ embedded +:+ "')")
              ∨ (role = "image" ∧ embedded = replaceAll "'" "\'" text
                 ∧ locator = "page.getByAltText('" +:+ embedded +:+ "')")))
       ∨ (∃ c first, truthy className = Some c ∧ head (split " " c) = Some first
            ∧ occurs " " first = false
            ∧ locator = "page.locator('" +:+ tagName +:+ "." +:+ first +:+ "')")
       ∨ (∃ embedded, bareQuote (ascii_of_nat 34) false embedded = false
            ∧ embedded = replaceAll (ascii_of_nat 34) ("\" +:+ dquote) text
            ∧ (0 < String.length text < 50)%nat
            ∧ locator = "page.locator('" +:+ tagName +:+ ":has-text(" +:+ dquote
                        +:+ embedded +:+ dquote +:+ ")')")
       ∨ locator = "page.locator('" +:+ tagName +:+ "')" )).
Proof.
  cbn zeta. unfold generateContentLocator.
  destruct (truthy id) as [i|]; [left; by exists i|]. right. split; [done|].
  destruct (String.eqb role "heading" && nonEmpty text) eqn:Eh.
  { apply andb_prop in Eh as [Hr%String.eqb_eq _]. left.
    exists (replaceAll "'" "\'" text). split; [by apply replaceAll_escapes|].
    by left. }
  destruct (nonEmpty text && (String.eqb role "paragraph" || String.eqb role "text")) eqn:Ep.
  { left. rewrite paragraph_shortText.
    exists (replaceAll "'" "\'" (paragraphSeed text)).
    split; [by apply replaceAll_escapes|]. right. left. split_and!; [done| |done].
    unfold paragraphSeed. rewrite substring0_length. lia. }
  destruct (String.eqb role "image" && nonEmpty text) eqn:Ei.
  { apply andb_prop in Ei as [Hr%String.eqb_eq _]. left.
    exists (replaceAll "'" "\'" text). split; [by apply replaceAll_escapes|].
    by do 2 right. }
  right. destruct (truthy className) as [c|] eqn:Ec.
  { left. pose proof (split_nonempty " " c) as Hn.
    destruct (split " " c) as [|first rest] eqn:Es; [done|].
    exists c, first. split_and!; [done|by rewrite Es| |done].
    apply (split_pieces " " c). rewrite Es. by left. }
  right. destruct (nonEmpty text && Nat.ltb (String.length text) 50) eqn:Et.
  - left. apply andb_prop in Et as [Hne Hlt%Nat.ltb_lt].
    exists (replaceAll (ascii_of_nat 34) ("\" +:+ dquote) text).
    split_and!; [by apply replaceAll_escapes|done| |done|done].
    destruct text; [done|cbn; lia].
  - by right.
Qed.

(** ** Content passes *)

Lemma truthy_Some_string (s : string) :
  truthy (Some s) = if nonEmpty s then Some s else None.
Proof. by destruct s. Qed.

(** X2. The Headings pass emits an element for a heading exactly when
    its trimmed text is not empty; name and text are the whole trimmed
    text, and the locator is the id selector when the heading has a
    non-empty id and the escaped role locator otherwise. *)
Theorem headings_pass t a cs :
  let node := Element t a false cs in
  let text := trim (text_of node) in
  (is_Some (pushedBy headingBody node) ↔ text ≠ EmptyString)
  ∧ (∀ e, headingBody node = Ok (Some e) →
       role e = "heading" ∧ name_or_label e = text ∧ text_content e = Some text
       ∧ tag_name e = toLowerCase t
       ∧ suggested_locator e
         = match truthy (assoc "id" a) with
           | Some i => "page.locator('#" +:+ i +:+ "')"
           | None => "page.getByRole('heading', { name: '"
                     +:+ replaceAll "'" "\'" text +:+ "' })"
           end).
Proof.
  intros node text. subst node.
  unfold pushedBy, headingBody, evaluateTagLower, evaluateTagName, textContent, getAttribute.
  cbn [live mbind result_bind attr_of fmap option_fmap option_map].
  fold text. rewrite truthy_Some_string.
  destruct text as [|c r] eqn:Et; cbn [nonEmpty].
  - split; [|done]. split; [by intros [? ?]|done].
  - split; [split; [done|by eexists]|].
    intros e [= <-]. cbn [role name_or_label text_content tag_name suggested_locator].
    split_and!; try done;
      unfold generateContentLocator; by destruct (truthy (assoc "id" a)).
Qed.

(** X3. The Paragraphs pass emits an element exactly when the trimmed
    text is longer than 10 characters; the text is kept whole, the name
    is the text cut to 50 characters plus an ellipsis (never longer than
    53), and without an id the locator matches on at most the first 20
    characters of the text, escaped. *)
Theorem paragraphs_pass t a cs :
  let node := Element t a false cs in
  let text := trim (text_of node) in
  (is_Some (pushedBy paragraphBody node) ↔ (10 < String.length text)%nat)
  ∧ (∀ e, paragraphBody node = Ok (Some e) →
       role e = "paragraph" ∧ tag_name e = "p" ∧ text_content e = Some text
       ∧ name_or_label e
         = (if Nat.ltb 50 (String.length text)
            then substring0 50 text +:+ "..." else text)
       ∧ (String.length (name_or_label e) ≤ 53)%nat
       ∧ (∃ rest, text = substring0 50 text +:+ rest)
       ∧ (truthy (assoc "id" a) = None →
          suggested_locator e
          = "page.getByText('" +:+ replaceAll "'" "\'" (paragraphSeed text) +:+ "')")).
Proof.
  intros node text. subst node.
  unfold pushedBy, paragraphBody, textContent, getAttribute.
  cbn [live mbind result_bind attr_of fmap option_fmap option_map].
  fold text. rewrite truthy_Some_string.
  destruct text as [|c r] eqn:Et; cbn [nonEmpty].
  { split; [|done]. split; [by intros [? ?]|]. intros H. exfalso. cbn in H. lia. }
  rewrite <- Et. assert (nonEmpty text = true) as Hne by by rewrite Et.
  destruct (Nat.ltb_spec 10 (String.length text)) as [Hlen|Hlen].
  - split; [split; [done|by eexists]|].
    intros e [= <-]. cbn [role name_or_label text_content tag_name suggested_locator].
    split_and!; try done.
    + destruct (Nat.ltb_spec 50 (String.length text)); [|lia].
      rewrite length_append, substring0_length.
      change (String.length "...") with 3%nat. lia.
    + apply substring0_prefix.
    + intros Hid. unfold generateContentLocator. rewrite Hid, Hne.
      replace (String.eqb "paragraph" "heading") with false by reflexivity.
      replace (String.eqb "paragraph" "paragraph") with true by reflexivity.
      cbn [andb orb]. by rewrite paragraph_shortText.
  - split; [|done]. split; [by intros [? ?]|]. intros H. exfalso. lia.
Qed.

(** X4. The Tables pass emits one element for every table it can read,
    also for an empty one; the name is the text of the first caption,
    not trimmed, when that text is not empty, and the row count over all
    [tr] descendants otherwise. *)
Theorem tables_pass t a cs :
  let node := Element t a false cs in
  let rows := rowsOf node in
  (∀ c, head (captionsOf node) = Some c → live c = Ok c) →
  ∃ e, tableBody node = Ok (Some e)
       ∧ role e = "table" ∧ tag_name e = "table"
       ∧ text_content e = Some ("Table with " +:+ ofNumber (length rows) +:+ " rows")
       ∧ name_or_label e
         = match head (captionsOf node) with
           | Some c => if nonEmpty (text_of c) then text_of c
                       else "Table with " +:+ ofNumber (length rows) +:+ " rows"
           | None => "Table with " +:+ ofNumber (length rows) +:+ " rows"
           end
       ∧ name_or_label e ≠ EmptyString.
Proof.
  intros node rows Hlive. subst node rows.
  unfold tableBody, queryFirst, queryAll, textContent, getAttribute.
  cbn [live mbind result_bind attr_of].
  fold (captionsOf (Element t a false cs)) in *.
  fold (rowsOf (Element t a false cs)).
  destruct (head (captionsOf (Element t a false cs))) as [c|] eqn:Ec.
  - rewrite (Hlive c eq_refl). cbn [mbind result_bind].
    eexists. split; [reflexivity|].
    cbn [role name_or_label text_content tag_name].
    split_and!; try done.
    + unfold orElse. rewrite truthy_Some_string. by destruct (nonEmpty (text_of c)).
    + unfold orElse. rewrite truthy_Some_string.
      destruct (text_of c); cbn [nonEmpty]; [|done]. done.
  - cbn [mbind result_bind]. eexists. split; [reflexivity|].
    cbn [role name_or_label text_content tag_name]. split_and!; done.
Qed.

Lemma append_assoc (a b c : string) : (a +:+ b) +:+ c = a +:+ (b +:+ c).
Proof.
  induction a as [|x a IH]; [done|]. rewrite !append_cons. by rewrite IH.
Qed.

Lemma append_nil_r (a : string) : a +:+ EmptyString = a.
Proof. induction a as [|x a IH]; [done|]. by rewrite append_cons, IH. Qed.

(** A joined list is its last piece behind a prefix that is empty or
    ends with the separator. *)
Lemma concat_last (sep : string) (l : list string) :
  l ≠ [] →
  ∃ dir, String.concat sep l = dir +:+ default EmptyString (last l)
         ∧ (dir = EmptyString ∨ ∃ d, dir = d +:+ sep).
Proof.
  induction l as [|x l IH]; [done|]. intros _.
  destruct l as [|y l].
  - exists EmptyString. split; [done|by left].
  - destruct IH as (dir & Hdir & Hend); [done|].
    exists (x +:+ sep +:+ dir).
    change (String.concat sep (x :: y :: l))
      with (x +:+ sep +:+ String.concat sep (y :: l)).
    rewrite Hdir. change (last (x :: y :: l)) with (last (y :: l)).
    split; [by rewrite !append_assoc|]. right.
    destruct Hend as [->|[d ->]].
    + exists x. by rewrite append_nil_r.
    + exists (x +:+ sep +:+ d). by rewrite !append_assoc.
Qed.

(** The last piece of [src.split("/")] is what follows the last slash
    of [src], the whole of [src] when it has none. *)
Lemma srcBasename_spec (s : string) :
  ∃ dir, s = dir +:+ srcBasename (Some s)
         ∧ occurs "/" (srcBasename (Some s)) = false
         ∧ (dir = EmptyString ∨ ∃ d, dir = d +:+ "/").
Proof.
  unfold srcBasename.
  destruct (concat_last "/" (split "/" s) (split_nonempty "/" s)) as (dir & Hdir & Hend).
  rewrite concat_split in Hdir. exists dir. split; [done|]. split; [|done].
  pose proof (split_nonempty "/" s) as Hn.
  destruct (last (split "/" s)) as [base|] eqn:El; [|done].
  apply (split_pieces "/" s). cbn [default].
  apply last_Some in El as [l' ->]. apply elem_of_app. right. by left.
Qed.

(** X5. The Images pass emits an element exactly when the image has a
    non-empty [alt] or a non-empty [src]; the name is the alt text, and
    without one it is, behind a fixed prefix, what follows the last
    slash of [src]: [src] is [dir] followed by [base], where [base]
    holds no slash and [dir] is empty or ends with a slash. *)
Theorem images_pass t a cs :
  let node := Element t a false cs in
  (is_Some (pushedBy imageBody node)
   ↔ is_Some (truthy (assoc "alt" a)) ∨ is_Some (truthy (assoc "src" a)))
  ∧ (∀ e, imageBody node = Ok (Some e) →
       role e = "image" ∧ tag_name e = "img"
       ∧ match truthy (assoc "alt" a) with
         | Some alt => name_or_label e = alt ∧ text_content e = Some alt
         | None =>
             ∃ src dir base,
               assoc "src" a = Some src ∧ src ≠ EmptyString
               ∧ src = dir +:+ base ∧ occurs "/" base = false
               ∧ (dir = EmptyString ∨ ∃ d, dir = d +:+ "/")
               ∧ name_or_label e = "Image: " +:+ base
               ∧ text_content e = Some EmptyString
         end).
Proof.
  intros node. subst node.
  unfold pushedBy, imageBody, getAttribute.
  cbn [live mbind result_bind attr_of]. unfold orElse.
  destruct (truthy (assoc "alt" a)) as [alt|] eqn:Ealt.
  - rewrite (bool_decide_eq_true_2 (is_Some (Some alt))) by by eexists.
    cbn [orb]. split; [split; [by left; eexists|by eexists]|].
    intros e [= <-]. cbn [role name_or_label text_content tag_name]. done.
  - rewrite (bool_decide_eq_false_2 (is_Some None)) by by intros [? ?].
    cbn [orb]. destruct (truthy (assoc "src" a)) as [src|] eqn:Esrc.
    + rewrite (bool_decide_eq_true_2 (is_Some (Some src))) by by eexists.
      split; [split; [by right; eexists|by eexists]|].
      intros e [= <-]. cbn [role name_or_label text_content tag_name].
      split_and!; try done.
      apply truthy_Some in Esrc as [Esrc Hne]. rewrite Esrc.
      destruct (srcBasename_spec src) as (dir & Hdir & Hbase & Hend).
      exists src, dir, (srcBasename (Some src)). done.
    + rewrite (bool_decide_eq_false_2 (is_Some None)) by by intros [? ?].
      split; [|done]. split; [by intros [? ?]|]. by intros [[? ?]|[? ?]].
Qed.

(** The role each content pass assigns. *)
Lemma contentBody_role (h : Dom) (e : PageElement) :
  (headingBody h = Ok (Some e) → role e = "heading")
  ∧ (paragraphBody h = Ok (Some e) → role e = "paragraph")
  ∧ (listBody h = Ok (Some e) → role e = "list")
  ∧ (tableBody h = Ok (Some e) → role e = "table")
  ∧ (imageBody h = Ok (Some e) → role e = "image").
Proof.
  destruct h as [d|t a [|] cs]; [done|done|].
  unfold headingBody, paragraphBody, listBody, tableBody, imageBody,
    evaluateTagLower, evaluateTagName, queryFirst, queryAll, textContent, getAttribute.
  cbn [live mbind result_bind attr_of fmap option_fmap option_map].
  split_and!; intros H.
  - destruct (truthy _) in H; [|done]. by injection H as <-.
  - destruct (truthy _) in H; [|done]. destruct (Nat.ltb _ _) in H; [|done].
    by injection H as <-.
  - destruct (List.filter _ _) as [|item0 items] in H; [done|].
    destruct (live item0) in H; [|done]. by injection H as <-.
  - destruct (head _) as [cap|] in H.
    + destruct (live cap) in H; [|done]. by injection H as <-.
    + by injection H as <-.
  - destruct (_ || _) in H; [|done]. by injection H as <-.
Qed.

Lemma Forall_omap_pushedBy (body : Dom → result (option PageElement))
    (r : string) (handles : list Dom) :
  (∀ h e, body h = Ok (Some e) → role e = r) →
  Forall (fun e => role e = r) (omap (pushedBy body) handles).
Proof.
  intros Hrole. apply Forall_forall. intros e (h & _ & Hp)%list_elem_of_omap.
  apply (Hrole h). unfold pushedBy in Hp. by destruct (body h) as [[?|]|]; simplify_eq.
Qed.

(** X6. The content elements come grouped by pass, whatever the order of
    the nodes in the document: all headings, then all paragraphs, then
    lists, tables and images, each group in document order and without
    the nodes that were skipped or could not be read. *)
Theorem content_elements_grouped (page : Document) :
  let headings := omap (pushedBy headingBody) (page_queryAll page headingSelector) in
  let paragraphs := omap (pushedBy paragraphBody) (page_queryAll page [SelTag "p"]) in
  let lists := omap (pushedBy listBody) (page_queryAll page [SelTag "ul"; SelTag "ol"]) in
  let tables := omap (pushedBy tableBody) (page_queryAll page [SelTag "table"]) in
  let images := omap (pushedBy imageBody) (page_queryAll page [SelTag "img"]) in
  extractContentElements page
  = (headings ++ paragraphs ++ lists ++ tables ++ images)%list
  ∧ Forall (fun e => role e = "heading") headings
  ∧ Forall (fun e => role e = "paragraph") paragraphs
  ∧ Forall (fun e => role e = "list") lists
  ∧ Forall (fun e => role e = "table") tables
  ∧ Forall (fun e => role e = "image") images
  ∧ (∀ t a cs, pushedBy headingBody (Element t a true cs) = None
               ∧ pushedBy paragraphBody (Element t a true cs) = None
               ∧ pushedBy listBody (Element t a true cs) = None
               ∧ pushedBy tableBody (Element t a true cs) = None
               ∧ pushedBy imageBody (Element t a true cs) = None).
Proof.
  cbn zeta. split_and!.
  - unfold extractContentElements. rewrite !forEachPush_omap, app_nil_l.
    by rewrite <- !app_assoc.
  - apply Forall_omap_pushedBy. intros h e. apply contentBody_role.
  - apply Forall_omap_pushedBy. intros h e. apply contentBody_role.
  - apply Forall_omap_pushedBy. intros h e. apply contentBody_role.
  - apply Forall_omap_pushedBy. intros h e. apply contentBody_role.
  - apply Forall_omap_pushedBy. intros h e. apply contentBody_role.
  - done.
Qed.

(** ** Deduplicated elements and the interactive extraction *)

Lemma keepFirst_fresh (seen : list string) (l : list PageElement) (e : PageElement) :
  e ∈ keepFirst seen l → suggested_locator e ∉ seen.
Proof.
  revert seen. induction l as [|x l IH]; intros seen; cbn [keepFirst].
  - by intros ?%elem_of_nil.
  - case_bool_decide as Hx; [apply IH|].
    intros [->|Hin]%elem_of_cons; [done|].
    apply IH in Hin. intros Hs. apply Hin. by right.
Qed.

Lemma keepFirst_NoDup (seen : list string) (l : list PageElement) :
  NoDup (suggested_locator <$> keepFirst seen l).
Proof.
  revert seen. induction l as [|x l IH]; intros seen; cbn [keepFirst].
  - constructor.
  - case_bool_decide as Hx; [apply IH|].
    cbn [fmap list_fmap]. constructor; [|apply IH].
    intros (y & Hy & Hin)%list_elem_of_fmap.
    apply keepFirst_fresh in Hin. apply Hin. rewrite <- Hy. by left.
Qed.

Lemma keepFirst_id (seen : list string) (l : list PageElement) :
  NoDup (suggested_locator <$> l) →
  (∀ e, e ∈ l → suggested_locator e ∉ seen) →
  keepFirst seen l = l.
Proof.
  revert seen. induction l as [|x l IH]; intros seen Hnd Hseen; [done|].
  cbn [keepFirst]. cbn [fmap list_fmap] in Hnd. apply NoDup_cons in Hnd as [Hx Hnd].
  rewrite bool_decide_eq_false_2 by (apply Hseen; by left).
  f_equal. apply IH; [done|].
  intros e He [Heq|Hs]%elem_of_cons.
  - apply Hx. apply list_elem_of_fmap. exists e. by split.
  - by apply (Hseen e); [right|].
Qed.

(** X7. The deduplicating filter returns elements with pairwise distinct
    locators, never more than it was given and beginning with the first
    one given; it loses no locator, and filtering again changes
    nothing. *)
Theorem uniqueElements_distinct (elements : list PageElement) :
  NoDup (suggested_locator <$> uniqueElements elements)
  ∧ (length (uniqueElements elements) ≤ length elements)%nat
  ∧ head (uniqueElements elements) = head elements
  ∧ (∀ locator, locator ∈ (suggested_locator <$> elements)
                ↔ locator ∈ (suggested_locator <$> uniqueElements elements))
  ∧ uniqueElements (uniqueElements elements) = uniqueElements elements.
Proof.
  assert (NoDup (suggested_locator <$> uniqueElements elements)) as Hnd.
  { rewrite uniqueElements_keepFirst. apply keepFirst_NoDup. }
  assert (sublist (uniqueElements elements) elements) as Hsub.
  { rewrite uniqueElements_keepFirst. apply keepFirst_sublist. }
  split_and!.
  - exact Hnd.
  - by apply sublist_length.
  - rewrite uniqueElements_keepFirst. by destruct elements.
  - intros locator. split.
    + intros (e & -> & He)%list_elem_of_fmap.
      pose proof (keepFirst_filter [] elements (suggested_locator e)) as Hf.
      rewrite bool_decide_eq_false_2 in Hf by apply not_elem_of_nil.
      rewrite <- uniqueElements_keepFirst in Hf.
      destruct (List.find _ elements) as [first|] eqn:E.
      * assert (In first (List.filter (hasLocator (suggested_locator e))
                            (uniqueElements elements))) as Hin
          by (rewrite Hf; by left).
        apply filter_In in Hin as [Hin Hloc%String.eqb_eq].
        apply list_elem_of_fmap. exists first. split; [done|].
        by apply list_elem_of_In.
      * apply list_elem_of_In in He.
        pose proof (find_none _ _ E e He) as Hnone.
        unfold hasLocator in Hnone. by rewrite String.eqb_refl in Hnone.
    + intros Hin. eapply elem_of_sublist; [exact Hin|]. by apply fmap_sublist.
  - rewrite (uniqueElements_keepFirst (uniqueElements elements)).
    apply keepFirst_id; [exact Hnd|]. intros e _. apply not_elem_of_nil.
Qed.

Lemma to_lower_unit_idemp (c : ascii) : to_lower_unit (to_lower_unit c) = to_lower_unit c.
Proof. destruct c as [[] [] [] [] [] [] [] []]; reflexivity. Qed.

Lemma toLowerCase_idemp (s : string) : toLowerCase (toLowerCase s) = toLowerCase s.
Proof.
  induction s as [|c s IH]; [done|]. cbn. by rewrite to_lower_unit_idemp, IH.
Qed.

(** X8. The interactive extraction obtains nothing. [extractElementInfo]
    begins with [handle.tagName()], which an element handle does not
    have; the call throws, the handler returns [null], and so no handle
    gives a candidate. On every page the deduplicated list is empty, and
    an analysis that is returned has no key element, no form field, no
    interactive element and no navigation element. *)
Theorem interactive_extraction_empty :
  (∀ handle, extractElementInfo handle = None)
  ∧ (∀ page, candidates page = [] ∧ extractElements page = [])
  ∧ (∀ world url s a s',
       analyzePage world url s = (Ok a, s') →
       key_elements a = [] ∧ form_fields a = []
       ∧ interactive_elements a = [] ∧ navigation_elements a = []).
Proof.
  split_and!.
  - apply extractElementInfo_null.
  - intros page. split; [apply candidates_nil|apply extractElements_nil].
  - by intros world url s a s' (doc & structure & _ & _ & ->)%analyzePage_Ok.
Qed.

(** ** Structure Summarizer *)

Lemma concat_split_replaceAll (a b : ascii) (s : string) :
  String.concat (String b EmptyString) (split a s) = replaceAll a (String b EmptyString) s.
Proof.
  induction s as [|c s IH]; [done|]. cbn [split replaceAll].
  pose proof (split_nonempty a s) as Hn.
  destruct (Ascii.eqb c a).
  - destruct (split a s) as [|x xs]; [done|].
    change (String b (String.concat (String b EmptyString) (x :: xs))
            = String b (replaceAll a (String b EmptyString) s)).
    by rewrite IH.
  - destruct (split a s) as [|x xs]; [done|].
    destruct xs as [|y ys]; cbn in *; by rewrite <- IH.
Qed.

Lemma getStructure_unfold t a th cs depth :
  getStructure (Element t a th cs) depth
  = if Nat.ltb 3 depth then EmptyString
    else structureLine t a (text_of (Element t a th cs)) depth
         +:+ (if bool_decide (toLowerCase t ∈ structuralTags)
              then fold_right (fun c acc => getStructure c (depth + 1) +:+ acc)
                     EmptyString (take 5 (elementChildren cs))
              else EmptyString).
Proof.
  cbn [getStructure]. destruct (Nat.ltb 3 depth); [done|].
  match goal with |- context [?v cs 5%nat] => set (visit := v) end.
  assert (∀ cs0 room,
    visit cs0 room
    = fold_right (fun c acc => getStructure c (depth + 1) +:+ acc)
        EmptyString (take room (elementChildren cs0))) as Hvisit.
  { induction cs0 as [|c cs0 IH]; intros room.
    - by destruct room.
    - destruct c as [d|t' a' th' cs'].
      + change (visit (TextNode d :: cs0) room) with (visit cs0 room). apply IH.
      + destruct room as [|room]; [done|].
        change (visit (Element t' a' th' cs' :: cs0) (S room))
          with (getStructure (Element t' a' th' cs') (depth + 1) +:+ visit cs0 room).
        by rewrite IH. }
  rewrite Hvisit. unfold structureLine.
  rewrite orElse_default. cbn [default].
  assert (∀ c, String.concat "." (split " " c) = replaceAll " " "." c) as Hc
    by apply concat_split_replaceAll.
  unfold id.
  destruct (truthy (assoc "class" a)) as [c|]; rewrite ?Hc;
    destruct (nonEmpty _ && _); case_bool_decide;
    repeat rewrite append_assoc; repeat rewrite append_nil_r;
    repeat rewrite append_nil; done.
Qed.

Lemma getStructure_too_deep (element : Dom) (depth : nat) :
  (3 < depth)%nat → getStructure element depth = EmptyString.
Proof.
  intros Hd. destruct element as [d|t a th cs]; [done|].
  rewrite getStructure_unfold. by rewrite (proj2 (Nat.ltb_lt _ _) Hd).
Qed.

(** X9. The structure summary never descends past depth 3: below it the
    summarizer yields nothing, at depth 3 it yields the node's one line
    whatever the node's children, and an element whose tag is not a
    structural one yields its one line at any depth up to 3. *)
Theorem getStructure_depth_bound t a th cs depth :
  ((3 < depth)%nat → getStructure (Element t a th cs) depth = EmptyString)
  ∧ (depth = 3%nat →
     getStructure (Element t a th cs) depth
     = structureLine t a (text_of (Element t a th cs)) depth)
  ∧ ((depth ≤ 3)%nat → toLowerCase t ∉ structuralTags →
     getStructure (Element t a th cs) depth
     = structureLine t a (text_of (Element t a th cs)) depth).
Proof.
  split_and!.
  - apply getStructure_too_deep.
  - intros ->. rewrite getStructure_unfold. cbn [Nat.ltb Nat.leb].
    case_bool_decide; [|by rewrite append_nil_r].
    assert (fold_right (fun c acc => getStructure c (3 + 1) +:+ acc) EmptyString
              (take 5 (elementChildren cs)) = EmptyString) as ->;
      [|by rewrite append_nil_r].
    induction (take 5 (elementChildren cs)) as [|c l IH]; [done|].
    cbn [fold_right]. rewrite IH, getStructure_too_deep by lia. done.
  - intros Hd Ht. rewrite getStructure_unfold.
    rewrite (proj2 (Nat.ltb_ge _ _) Hd).
    rewrite bool_decide_eq_false_2 by done. by rewrite append_nil_r.
Qed.

(** X10. The structure summary lists at most five children per node:
    two nodes with the same tag, attributes and text whose first five
    element children agree have the same summary, whatever follows. *)
Theorem getStructure_breadth_bound t a th cs th' cs' depth :
  text_of (Element t a th cs) = text_of (Element t a th' cs') →
  take 5 (elementChildren cs) = take 5 (elementChildren cs') →
  getStructure (Element t a th cs) depth = getStructure (Element t a th' cs') depth.
Proof.
  intros Htext Hkids. rewrite !getStructure_unfold. by rewrite Htext, Hkids.
Qed.

(** ** Sessions and outcomes *)

Lemma session_body_stateless world page url :
  stateless
    (doc ← goto world page url;
     let title := doc_title doc in
     let elements := extractElements doc in
     let contentElements := extractContentElements doc in
     let formFields := List.filter isFormField elements in
     let interactiveElements := List.filter isInteractive elements in
     let navigationElements := List.filter isNavigation elements in
     pageStructure ← liftResult (getPageStructure doc);
     let highLevelActions :=
       inferActions formFields interactiveElements contentElements in
     mret {| url := url;
             title := title;
             high_level_actions := highLevelActions;
             key_elements := elements;
             page_structure := pageStructure;
             form_fields := formFields;
             interactive_elements := interactiveElements;
             navigation_elements := navigationElements;
             content_elements := contentElements |}).
Proof.
  apply stateless_bind; [apply stateless_goto|]. intros doc.
  apply stateless_bind; [apply stateless_liftResult|]. intros st.
  apply stateless_mret.
Qed.

(** What [analyzePage] returns and the state it leaves, case by case. *)
Lemma analyzePage_cases world url s :
  wfState s →
  analyzePage world url s
  = match (initialize world s).1 with
    | Throw e => (Throw e, s)
    | Ok _ =>
        let s1 := (initialize world s).2 in
        if newPage_ok world then
          (match web world url with
           | None => Throw NavigationError
           | Some doc =>
               match body doc with
               | None => Throw EvaluateError
               | Some b => Ok (analysisOf url doc b)
               end
           end,
           {| browser := browser s1;
              open_browsers := open_browsers s1;
              open_pages := open_pages s1;
              next_handle := S (next_handle s1) |})
        else (Throw TargetClosed, s1)
    end.
Proof.
  intros Hwf. unfold analyzePage. unfold mbind at 1, M_bind at 1.
  destruct (initialize world s) as [[[]|e] s1] eqn:Hinit;
    destruct (initialize_wf _ _ _ _ Hwf Hinit)
      as (Hwf1 & Hpages & Hbrowsers & Hnext & Hkeep & Hres); cbn [fst snd].
  - destruct Hres as [b Eb].
    unfold mbind at 1, M_bind at 1, getBrowser. rewrite Eb.
    unfold mbind at 1, M_bind at 1, newPage.
    assert (b ∈ open_browsers s1) as Hopen by by apply Hwf1.
    rewrite (bool_decide_eq_true_2 _ Hopen). cbn [andb].
    destruct (newPage_ok world); [|done].
    rewrite tryFinally_closePage by apply session_body_stateless.
    unfold withoutPage. cbn [browser open_browsers open_pages next_handle].
    assert (next_handle s1 ∉ open_pages s1) as Hfresh.
    { intros Hin. apply Hwf1 in Hin. lia. }
    assert (({[next_handle s1]} ∪ open_pages s1) ∖ {[next_handle s1]} = open_pages s1)
      as -> by set_solver.
    rewrite Eb. f_equal.
    unfold mbind, M_bind, goto, liftResult, getPageStructure, mret, M_ret.
    cbn [open_pages].
    rewrite bool_decide_eq_true_2 by set_solver.
    destruct (web world url) as [doc|]; [|done].
    by destruct (body doc).
  - by destruct Hres as (-> & _ & _).
Qed.

Lemma initializeStep_test_none world s :
  browser s = None → initializeStep world Entered s = (Launching, s).
Proof. intros E. cbn. by rewrite E. Qed.

Lemma initializeStep_test_some world s b :
  browser s = Some b → initializeStep world Entered s = (Settled (Ok tt), s).
Proof. intros E. cbn. by rewrite E. Qed.

Lemma initializeStep_launched world s :
  launch_ok world = true →
  initializeStep world Launching s
  = (Settled (Ok tt),
     {| browser := Some (next_handle s);
        open_browsers := {[next_handle s]} ∪ open_browsers s;
        open_pages := open_pages s;
        next_handle := S (next_handle s) |}).
Proof.
  intros E. cbn [initializeStep]. unfold launched, launch, mbind, M_bind.
  by rewrite E.
Qed.

(** Run with no other call in between, the stretches are [initialize]. *)
Lemma initialize_alone world s (other : InitPhase) :
  overlapped world [false; false] Entered other s
  = (Settled (initialize world s).1, other, (initialize world s).2).
Proof.
  cbn [overlapped initializeStep]. rewrite initialize_cases.
  destruct (browser s); [done|].
  cbn [initializeStep]. unfold launched, launch, mbind, M_bind.
  by destruct (launch_ok world).
Qed.

(** X11. [initialize] is not atomic. When one call has settled before
    the next begins, the second finds the browser and launches nothing.
    When two calls overlap so that both test [this.browser] before
    either launch has settled, both launch a browser; the field keeps
    the one assigned last, [close] closes that one only, and the other
    stays open with nothing referring to it. *)
Theorem initialize_overlap world s :
  launch_ok world = true →
  browser s = None →
  (∀ b, b ∈ open_browsers s → b < next_handle s) →
  (∀ other, overlapped world [false; false] Entered other s
            = (Settled (initialize world s).1, other, (initialize world s).2))
  ∧ (∃ s1,
     overlapped world [false; false; true] Entered Entered s
     = (Settled (Ok tt), Settled (Ok tt), s1)
     ∧ initialize world s = (Ok tt, s1)
     ∧ browser s1 = Some (next_handle s)
     ∧ open_browsers s1 = {[next_handle s]} ∪ open_browsers s
     ∧ open_browsers (close s1).2 = open_browsers s)
  ∧ (∃ s2,
       overlapped world [false; true; false; true] Entered Entered s
       = (Settled (Ok tt), Settled (Ok tt), s2)
       ∧ browser s2 = Some (S (next_handle s))
       ∧ open_browsers s2
         = {[S (next_handle s)]} ∪ ({[next_handle s]} ∪ open_browsers s)
       ∧ browser (close s2).2 = None
       ∧ open_browsers (close s2).2 = {[next_handle s]} ∪ open_browsers s
       ∧ next_handle s ∈ open_browsers (close s2).2).
Proof.
  intros Hl Hb Hfresh.
  assert (next_handle s ∉ open_browsers s) as H1.
  { intros Hin%Hfresh. lia. }
  assert (S (next_handle s) ∉ open_browsers s) as H2.
  { intros Hin%Hfresh. lia. }
  assert (next_handle s ≠ S (next_handle s)) as H3 by lia.
  split; [apply initialize_alone|]. split.
  - eexists. split_and!.
    + cbn [overlapped]. rewrite (initializeStep_test_none _ _ Hb).
      rewrite (initializeStep_launched _ _ Hl).
      by rewrite (initializeStep_test_some _ _ (next_handle s)).
    + by rewrite initialize_cases, Hb, Hl.
    + done.
    + done.
    + unfold close, getBrowser, closeBrowser, setBrowser, mbind, M_bind, mret, M_ret.
      cbn. set_solver.
  - eexists. split_and!.
    + cbn [overlapped]. rewrite !(initializeStep_test_none _ _ Hb).
      by rewrite !(initializeStep_launched _ _ Hl).
    + done.
    + done.
    + done.
    + unfold close, getBrowser, closeBrowser, setBrowser, mbind, M_bind, mret, M_ret.
      cbn. set_solver.
    + unfold close, getBrowser, closeBrowser, setBrowser, mbind, M_bind, mret, M_ret.
      cbn. set_solver.
Qed.

(** X12. [analyzePage] handles no failure of its own: a launch that
    fails, a page that cannot be opened, a navigation that fails and a
    document without body each make the call reject with that error.
    When the call returns, the URL loaded a document with a body and the
    record is the analysis of that document. *)
Theorem analyzePage_outcome world url s :
  wfState s →
  (∀ a, (analyzePage world url s).1 = Ok a →
     ∃ doc b, web world url = Some doc ∧ body doc = Some b
              ∧ a = analysisOf url doc b)
  ∧ (browser s = None → launch_ok world = false →
     analyzePage world url s = (Throw LaunchError, s))
  ∧ (is_Some (browser s) ∨ launch_ok world = true →
     (newPage_ok world = false →
      (analyzePage world url s).1 = Throw TargetClosed)
     ∧ (newPage_ok world = true →
        (web world url = None →
         (analyzePage world url s).1 = Throw NavigationError)
        ∧ (∀ doc, web world url = Some doc → body doc = None →
             (analyzePage world url s).1 = Throw EvaluateError))).
Proof.
  intros Hwf. rewrite (analyzePage_cases _ _ _ Hwf), initialize_cases.
  split_and!.
  - intros a.
    destruct (browser s) as [b0|]; cbn [fst snd];
      [|destruct (launch_ok world); cbn [fst snd]; [|done]];
      (destruct (newPage_ok world); cbn [fst]; [|done]);
      (destruct (web world url) as [doc|]; [|done]);
      (destruct (body doc) as [b|] eqn:Ebody; [|done]);
      intros [= <-]; by exists doc, b.
  - intros -> ->. done.
  - intros Hbrowser.
    assert ((match browser s with
             | Some _ => (Ok tt, s)
             | None =>
                 if launch_ok world
                 then (Ok tt, {| browser := Some (next_handle s);
                                 open_browsers := {[next_handle s]} ∪ open_browsers s;
                                 open_pages := open_pages s;
                                 next_handle := S (next_handle s) |})
                 else (Throw LaunchError, s)
             end).1 = Ok tt) as ->.
    { destruct Hbrowser as [[b0 ->]| ->]; [done|]. by destruct (browser s). }
    split; [by intros ->|]. intros ->. split.
    + by intros ->.
    + by intros doc -> ->.
Qed.

(** ** Inferred actions of an analysis *)

Lemma triggered_sublist (triggers : list (string * bool)) :
  sublist (triggered triggers) (triggers.*1).
Proof.
  induction triggers as [|[label [|]] triggers IH]; cbn; [done| |].
  - by apply sublist_skip.
  - by apply sublist_cons.
Qed.

Lemma actionLabels_NoDup : NoDup actionLabels.
Proof.
  unfold actionLabels.
  repeat (apply NoDup_cons; split;
          [rewrite ?elem_of_cons, elem_of_nil; intros H;
           repeat (destruct H as [H|H]; [discriminate H|]); done|]).
  apply NoDup_nil_2.
Qed.

Lemma triggered_lookup (label : string) (triggers : list (string * bool)) :
  NoDup (triggers.*1) →
  (label ∈ triggered triggers ↔ lookupTrigger label triggers = true).
Proof.
  induction triggers as [|[l b] triggers IH]; cbn [triggered lookupTrigger fmap list_fmap fst].
  - intros _. rewrite elem_of_nil. done.
  - intros [Hl Hnd]%NoDup_cons. specialize (IH Hnd).
    destruct (String.eqb_spec l label) as [->|Hne].
    + assert (label ∉ triggered triggers) as Hnot.
      { intros Hin. apply Hl. eapply elem_of_sublist; [exact Hin|].
        apply triggered_sublist. }
      destruct b; [rewrite elem_of_cons; tauto|]. split; [done|discriminate].
    + destruct b; [|exact IH]. rewrite elem_of_cons, IH. split; [|tauto].
      intros [->|H]; done.
Qed.

(** X13. Whatever the element lists, the inferred actions are a sublist
    of the nine labels in their fixed order: no label occurs twice, none
    is out of order, and there are at most nine. *)
Theorem inferActions_labels formFields interactiveElements contentElements :
  let actions := inferActions formFields interactiveElements contentElements in
  sublist actions actionLabels ∧ NoDup actions ∧ (length actions ≤ 9)%nat.
Proof.
  cbn zeta. rewrite inferActions_triggered.
  pose proof (triggered_sublist
                (actionTriggers formFields interactiveElements contentElements)) as Hs.
  change ((actionTriggers formFields interactiveElements contentElements).*1)
    with actionLabels in Hs.
  split_and!.
  - exact Hs.
  - eapply sublist_NoDup; [apply actionLabels_NoDup|exact Hs].
  - apply sublist_length in Hs. exact Hs.
Qed.

(** X14. The actions of an analysis come from the content elements
    alone: they are the labels, in order, of the content roles that
    occur, and none of the four labels about interactive elements is
    ever among them, whatever the page holds. *)
Theorem analysis_actions world url s a s' :
  analyzePage world url s = (Ok a, s') →
  high_level_actions a = triggered (contentTriggers (content_elements a))
  ∧ (∀ label, label ∈ high_level_actions a
              ↔ lookupTrigger label (contentTriggers (content_elements a)) = true)
  ∧ ("fill form fields" ∉ high_level_actions a)
  ∧ ("submit form" ∉ high_level_actions a)
  ∧ ("navigate via links" ∉ high_level_actions a)
  ∧ ("interact with buttons" ∉ high_level_actions a).
Proof.
  intros (doc & structure & _ & _ & ->)%analyzePage_Ok.
  cbn [high_level_actions content_elements].
  assert (inferActions [] [] (extractContentElements doc)
          = triggered (contentTriggers (extractContentElements doc))) as ->.
  { rewrite inferActions_triggered. unfold actionTriggers.
    rewrite bool_decide_eq_false_2 by (by intros H). done. }
  assert (∀ label,
            label ∈ triggered (contentTriggers (extractContentElements doc))
            ↔ lookupTrigger label (contentTriggers (extractContentElements doc)) = true)
    as Hlookup.
  { intros label. apply triggered_lookup.
    eapply sublist_NoDup; [apply actionLabels_NoDup|].
    unfold actionLabels. cbn [contentTriggers fmap list_fmap fst].
    do 4 apply sublist_cons. done. }
  split_and!; [done|exact Hlookup|..]; rewrite Hlookup; discriminate.
Qed.

(** ** Well-formed elements *)

Lemma generateContentLocator_prefix role text tagName id className :
  String.prefix "page." (generateContentLocator role text tagName id className) = true.
Proof. unfold generateContentLocator. repeat case_match; reflexivity. Qed.

Lemma orElse_nonEmpty (v : option string) (d : string) :
  d ≠ EmptyString → orElse v d ≠ EmptyString.
Proof.
  intros Hd. unfold orElse. destruct (truthy v) as [s|] eqn:E; [|done].
  by apply truthy_Some in E as [_ ?].
Qed.

Lemma append_nonEmpty (c : ascii) (a b : string) : String c a +:+ b ≠ EmptyString.
Proof. done. Qed.

Lemma contentBody_wellformed (h : Dom) (e : PageElement) :
  headingBody h = Ok (Some e) ∨ paragraphBody h = Ok (Some e)
  ∨ listBody h = Ok (Some e) ∨ tableBody h = Ok (Some e)
  ∨ imageBody h = Ok (Some e) →
  name_or_label e ≠ EmptyString
  ∧ String.prefix "page." (suggested_locator e) = true
  ∧ is_Some (text_content e)
  ∧ toLowerCase (tag_name e) = tag_name e.
Proof.
  destruct h as [d|t a [|] cs]; [naive_solver|naive_solver|].
  unfold headingBody, paragraphBody, listBody, tableBody, imageBody,
    evaluateTagLower, evaluateTagName, queryFirst, queryAll, textContent, getAttribute.
  cbn [live mbind result_bind attr_of fmap option_fmap option_map].
  intros [H|[H|[H|[H|H]]]].
  - destruct (truthy _) as [text|] eqn:E in H; [|done]. injection H as <-.
    cbn [name_or_label suggested_locator text_content tag_name].
    apply truthy_Some in E as [_ Hne].
    split_and!; [done|apply generateContentLocator_prefix|by eexists|
                 apply toLowerCase_idemp].
  - destruct (truthy _) as [text|] eqn:E in H; [|done].
    destruct (Nat.ltb 10 _) in H; [|done]. injection H as <-.
    cbn [name_or_label suggested_locator text_content tag_name].
    apply truthy_Some in E as [_ Hne].
    split_and!; [|apply generateContentLocator_prefix|by eexists|done].
    destruct (Nat.ltb_spec 50 (String.length text)) as [Hlen|Hlen]; [|done].
    intros Hz. apply (f_equal String.length) in Hz.
    rewrite length_append, substring0_length in Hz.
    change (String.length "...") with 3%nat in Hz. cbn in Hz. lia.
  - destruct (List.filter _ _) as [|item0 items] in H; [done|].
    destruct (live item0) in H; [|done]. cbn [mbind result_bind] in H.
    injection H as <-.
    cbn [name_or_label suggested_locator text_content tag_name].
    split_and!; [|apply generateContentLocator_prefix|by eexists|
                 apply toLowerCase_idemp].
    destruct (String.eqb _ _); apply append_nonEmpty.
  - destruct (head _) as [cap|] in H.
    + destruct (live cap) in H; [|done]. cbn [mbind result_bind] in H.
      injection H as <-.
      cbn [name_or_label suggested_locator text_content tag_name].
      split_and!; [|apply generateContentLocator_prefix|by eexists|done].
      apply orElse_nonEmpty, append_nonEmpty.
    + cbn [mbind result_bind] in H. injection H as <-.
      cbn [name_or_label suggested_locator text_content tag_name].
      split_and!; [|apply generateContentLocator_prefix|by eexists|done].
      apply orElse_nonEmpty, append_nonEmpty.
  - destruct (_ || _) in H; [|done]. injection H as <-.
    cbn [name_or_label suggested_locator text_content tag_name].
    split_and!; [|apply generateContentLocator_prefix|by eexists|done].
    apply orElse_nonEmpty, append_nonEmpty.
Qed.

(** X15. Every content element of an analysis has a non-empty name, a
    locator that starts with [page.], a text (possibly empty) and a
    lower-case tag name. *)
Theorem content_elements_wellformed world url s a s' :
  analyzePage world url s = (Ok a, s') →
  ∀ e, e ∈ content_elements a →
    name_or_label e ≠ EmptyString
    ∧ String.prefix "page." (suggested_locator e) = true
    ∧ is_Some (text_content e)
    ∧ toLowerCase (tag_name e) = tag_name e.
Proof.
  intros (doc & structure & _ & _ & ->)%analyzePage_Ok e.
  cbn [content_elements].
  intros (h & _ & He)%extractContentElements_elem.
  apply (contentBody_wellformed h). tauto.
Qed.

(** ** Scenario generation *)

(** X16. [generateScenarios] never rejects: it returns the parsed
    feature when the request yields non-empty content that parses, and
    the fallback feature in every other case; each scenario of the
    fallback starts by navigating to the analysed URL, and the fallback
    is the authentication feature exactly when the story mentions login
    or a form field is named like a password. *)
Theorem generateScenarios_never_rejects
    (create : Scenarios.settled (option string))
    (JSON_parse : string → Scenarios.settled Scenarios.BDDFeature)
    (userStory : string) (pageAnalysis : PageAnalysis) :
  let fallback := Scenarios.generateFallbackScenarios userStory pageAnalysis in
  (∃ feature,
     Scenarios.generateScenarios create JSON_parse userStory pageAnalysis
     = Scenarios.Fulfilled feature
     ∧ ( (∃ content, create = Scenarios.Fulfilled (Some content)
                     ∧ content ≠ EmptyString
                     ∧ JSON_parse content = Scenarios.Fulfilled feature)
       ∨ (feature = fallback
          ∧ ¬ ∃ content parsed, create = Scenarios.Fulfilled (Some content)
                                ∧ content ≠ EmptyString
                                ∧ JSON_parse content = Scenarios.Fulfilled parsed)))
  ∧ Scenarios.scenarios fallback ≠ []
  ∧ Forall (fun sc => head (Scenarios.steps sc)
                      = Some (Scenarios.navigateStep pageAnalysis))
      (Scenarios.scenarios fallback)
  ∧ (Scenarios.feature_name fallback = "User Authentication"
     ↔ includes (toLowerCase userStory) "login" = true
       ∨ ∃ field, field ∈ form_fields pageAnalysis
                  ∧ includes (toLowerCase (name_or_label field)) "password" = true).
Proof.
  cbn zeta. split_and!.
  - unfold Scenarios.generateScenarios.
    destruct create as [content|message].
    + destruct (truthy content) as [c|] eqn:Ec.
      * apply truthy_Some in Ec as [-> Hne].
        destruct (JSON_parse c) as [feature|message] eqn:Ep.
        -- exists feature. split; [done|]. left. by exists c.
        -- eexists. split; [done|]. right. split; [done|].
           intros (c' & parsed & [= <-] & _ & Hp). congruence.
      * eexists. split; [done|]. right. split; [done|].
        intros (c' & parsed & [= ->] & Hne & _).
        by destruct c'.
    + eexists. split; [done|]. right. split; [done|].
      by intros (c' & parsed & Hc & _).
  - unfold Scenarios.generateFallbackScenarios. by destruct (_ || _).
  - unfold Scenarios.generateFallbackScenarios.
    destruct (_ || _); repeat constructor.
  - unfold Scenarios.generateFallbackScenarios.
    destruct (includes (toLowerCase userStory) "login") eqn:Estory; cbn [orb].
    + split; [by left|done].
    + destruct (existsb _ _) eqn:Ex; cbn [Scenarios.feature_name].
      * split; [|done]. intros _. right.
        apply existsb_exists in Ex as (field & Hin & Hf).
        exists field. by rewrite list_elem_of_In.
      * split; [done|]. intros [?|(field & Hin & Hf)]; [done|].
        exfalso. apply (eq_true_false_abs _ eq_refl). rewrite <- Ex. symmetry.
        apply existsb_exists. exists field. by rewrite <- list_elem_of_In.
Qed.

(** ** Instances on the example pages *)

Lemma tables_pass_witness :
  (∀ c, head (captionsOf sampleTable) = Some c → live c = Ok c)
  ∧ ∃ e, tableBody sampleTable = Ok (Some e) ∧ name_or_label e = "Prices".
Proof.
  assert (∀ c, head (captionsOf sampleTable) = Some c → live c = Ok c) as Hlive
    by (intros c [= <-]; reflexivity).
  split; [exact Hlive|].
  destruct (tables_pass "TABLE" [] _ Hlive) as (e & He & _ & _ & _ & Hname & _).
  exists e. split; [exact He|]. rewrite Hname. vm_compute. reflexivity.
Defined.

Lemma interactive_extraction_empty_witness :
  match analyzePage (exampleWorld samplePage) exampleUrl initialState with
  | (Ok a, _) =>
      key_elements a = [] ∧ form_fields a = []
      ∧ interactive_elements a = [] ∧ navigation_elements a = []
  | (Throw _, _) => False
  end.
Proof.
  destruct (analyzePage (exampleWorld samplePage) exampleUrl initialState)
    as [[a|e] s'] eqn:E; [|vm_compute in E; discriminate E].
  exact (proj2 (proj2 interactive_extraction_empty) _ _ _ _ _ E).
Defined.

Lemma getStructure_breadth_bound_witness :
  text_of (elem "DIV" [] (fiveSections ++ [elem "SECTION" [] []]))
  = text_of (elem "DIV" [] fiveSections)
  ∧ take 5 (elementChildren (fiveSections ++ [elem "SECTION" [] []]))
    = take 5 (elementChildren fiveSections)
  ∧ getStructure (elem "DIV" [] (fiveSections ++ [elem "SECTION" [] []])) 0
    = getStructure (elem "DIV" [] fiveSections) 0.
Proof.
  split; [reflexivity|]. split; [reflexivity|].
  apply (getStructure_breadth_bound "DIV" [] false _ false _ 0); reflexivity.
Defined.

Lemma initialize_overlap_witness :
  launch_ok (exampleWorld samplePage) = true
  ∧ browser initialState = None
  ∧ (∃ s1,
       overlapped (exampleWorld samplePage) [false; false; true] Entered Entered
         initialState
       = (Settled (Ok tt), Settled (Ok tt), s1)
       ∧ open_browsers s1 = {[0]} ∪ ∅
       ∧ open_browsers (close s1).2 = ∅)
  ∧ (∃ s2,
       overlapped (exampleWorld samplePage) [false; true; false; true] Entered Entered
         initialState
       = (Settled (Ok tt), Settled (Ok tt), s2)
       ∧ browser s2 = Some 1
       ∧ open_browsers s2 = {[1]} ∪ ({[0]} ∪ ∅)
       ∧ 0 ∈ open_browsers (close s2).2).
Proof.
  split; [reflexivity|]. split; [reflexivity|].
  assert (∀ b, b ∈ open_browsers initialState → b < next_handle initialState) as Hfresh.
  { intros b Hb. cbn in Hb. set_solver. }
  destruct (initialize_overlap (exampleWorld samplePage) initialState
              eq_refl eq_refl Hfresh)
    as (_ & (s1 & Hrun1 & _ & _ & Hopen1 & Hclose1)
        & (s2 & Hrun2 & Hb2 & Hopen2 & _ & _ & Hleak)).
  split.
  - exists s1. split_and!; [exact Hrun1|exact Hopen1|exact Hclose1].
  - exists s2. split_and!; [exact Hrun2|exact Hb2|exact Hopen2|exact Hleak].
Defined.

Lemma analyzePage_outcome_witness :
  wfState initialState
  ∧ web (exampleWorld samplePage) unreachableUrl = None
  ∧ (analyzePage (exampleWorld samplePage) unreachableUrl initialState).1
    = Throw NavigationError
  ∧ match (analyzePage (exampleWorld samplePage) exampleUrl initialState).1 with
    | Ok a =>
        ∃ doc b, web (exampleWorld samplePage) exampleUrl = Some doc
                 ∧ body doc = Some b ∧ a = analysisOf exampleUrl doc b
    | Throw _ => False
    end.
Proof.
  split; [apply initialState_wf|]. split; [reflexivity|]. split.
  - destruct (analyzePage_outcome (exampleWorld samplePage) unreachableUrl initialState
                initialState_wf) as (_ & _ & Hopen).
    destruct (Hopen (or_intror eq_refl)) as [_ Hpage].
    exact (proj1 (Hpage eq_refl) eq_refl).
  - destruct (analyzePage_outcome (exampleWorld samplePage) exampleUrl initialState
                initialState_wf) as (Hok & _).
    destruct (analyzePage (exampleWorld samplePage) exampleUrl initialState).1
      as [a|e] eqn:E; [exact (Hok a eq_refl)|vm_compute in E; discriminate E].
Defined.

Lemma analysis_actions_witness :
  match analyzePage (exampleWorld samplePage) exampleUrl initialState with
  | (Ok a, _) =>
      high_level_actions a = ["verify page headings"]
      ∧ ("interact with buttons" ∉ high_level_actions a)
  | (Throw _, _) => False
  end.
Proof.
  destruct (analyzePage (exampleWorld samplePage) exampleUrl initialState)
    as [[a|e] s'] eqn:E; [|vm_compute in E; discriminate E].
  destruct (analysis_actions _ _ _ _ _ E) as (Heq & _ & _ & _ & _ & Hno).
  split; [|exact Hno].
  rewrite Heq. vm_compute in E. injection E as <- _. reflexivity.
Defined.

Lemma content_elements_wellformed_witness :
  match analyzePage (exampleWorld samplePage) exampleUrl initialState with
  | (Ok a, _) =>
      (name_or_label <$> content_elements a) = ["Orders"]
      ∧ ∀ e, e ∈ content_elements a →
          name_or_label e ≠ EmptyString
          ∧ String.prefix "page." (suggested_locator e) = true
          ∧ is_Some (text_content e)
          ∧ toLowerCase (tag_name e) = tag_name e
  | (Throw _, _) => False
  end.
Proof.
  destruct (analyzePage (exampleWorld samplePage) exampleUrl initialState)
    as [[a|e] s'] eqn:E; [|vm_compute in E; discriminate E].
  split; [|exact (content_elements_wellformed _ _ _ _ _ E)].
  vm_compute in E. injection E as <- _. reflexivity.
Defined.

(** The sample page holds a link, two buttons and an input, and the
    analysis lists none of them. *)
Example samplePage_views :
  (fun r => match r with
            | (Ok a, _) =>
                Some (suggested_locator <$> key_elements a,
                      name_or_label <$> content_elements a,
                      high_level_actions a,
                      (length (form_fields a), length (interactive_elements a),
                       length (navigation_elements a)))
            | (Throw _, _) => None
            end)
    (analyzePage (exampleWorld samplePage) exampleUrl initialState)
  = Some ([], ["Orders"], ["verify page headings"], (0, 0, 0)%nat).
Proof. vm_compute. reflexivity. Qed.

Lemma headings_pass_witness :
  ∃ e, headingBody welcomeNode = Ok (Some e)
       ∧ name_or_label e = "Welcome"
       ∧ suggested_locator e = "page.locator('#welcome')".
Proof.
  eexists. split; [vm_compute; reflexivity|].
  destruct (proj2 (headings_pass "H1" [("id", "welcome")] [TextNode " Welcome "])
              _ ltac:(vm_compute; reflexivity)) as (_ & Hname & _ & _ & Hloc).
  split; [rewrite Hname|rewrite Hloc]; vm_compute; reflexivity.
Defined.

Lemma paragraphs_pass_witness :
  ∃ e, paragraphBody longParagraph = Ok (Some e)
       ∧ (String.length (name_or_label e) ≤ 53)%nat
       ∧ suggested_locator e = "page.getByText('It\'s a long paragrap')".
Proof.
  eexists. split; [vm_compute; reflexivity|].
  destruct (proj2 (paragraphs_pass "P" []
                     [TextNode "It's a long paragraph of more than fifty characters in all."])
              _ ltac:(vm_compute; reflexivity)) as (_ & _ & _ & _ & Hlen & _ & Hloc).
  split; [exact Hlen|]. rewrite (Hloc eq_refl). vm_compute. reflexivity.
Defined.

Lemma images_pass_witness :
  ∃ e, imageBody logoImage = Ok (Some e)
       ∧ ∃ src dir base,
           assoc "src" [("src", "/img/logo.png")] = Some src ∧ src ≠ EmptyString
           ∧ src = dir +:+ base ∧ occurs "/" base = false
           ∧ (dir = EmptyString ∨ ∃ d, dir = d +:+ "/")
           ∧ name_or_label e = "Image: " +:+ base
           ∧ text_content e = Some EmptyString.
Proof.
  eexists. split; [vm_compute; reflexivity|].
  exact (proj2 (proj2 (proj2 (images_pass "IMG" [("src", "/img/logo.png")] [])
                         _ ltac:(vm_compute; reflexivity)))).
Defined.

Lemma getStructure_depth_bound_witness :
  getStructure (elem "DIV" [("class", "card  wide")] fiveSections) 3
  = "      div.card..wide" +:+ String (ascii_of_nat 10) EmptyString.
Proof.
  etrans;
    [exact (proj1 (proj2 (getStructure_depth_bound
                            "DIV" [("class", "card  wide")] false fiveSections 3)) eq_refl)|].
  vm_compute. reflexivity.
Defined.
